(** * RPM gauge sketch (LCD1.85.Round_Gauge.ino): a shallow embedding

    The sketch keeps a handful of globals (the last RPM received over
    ESP-NOW, the colour-scheme cursor, the LVGL handles of the scene and of
    the refresh timer) and the routines that touch them:
    [esp_now_recv_cb], [update_needle], [rpm_timer_cb],
    [touch_color_cycle_cb] and the scene builder [Lvgl_CreateRpmGauge].

    Integers of the sketch are modelled as [Z]; the C [float] is IEEE
    binary32, modelled with the Standard Library's executable
    specification of floating-point arithmetic at precision 24.  The two
    libm calls ([cosf], [sinf]) are parameters of the development. *)

From Stdlib Require Import ZArith List Bool String Ascii Lia.
From Stdlib Require Import Strings.Byte DecimalString QArith Qabs.
From Stdlib Require Import Floats.SpecFloat.
Import ListNotations.

Open Scope Z_scope.

(* ------------------------------------------------------------------ *)
(** ** IEEE binary32, as the sketch uses it                            *)
(* ------------------------------------------------------------------ *)

Module F32.

Definition prec : Z := 24.
Definition emax : Z := 128.

Definition t := spec_float.

(** [(float)n] for an integer [n]: rounded to nearest, ties to even. *)
Definition of_Z (n : Z) : t := binary_normalize prec emax n 0 false.

Definition add : t -> t -> t := SFadd prec emax.
Definition sub : t -> t -> t := SFsub prec emax.
Definition mul : t -> t -> t := SFmul prec emax.
Definition div : t -> t -> t := SFdiv prec emax.
Definition ltb : t -> t -> bool := SFltb.

(** A decimal literal [n/d] with the suffix [f]: the binary32 value nearest
    to the quotient.  Division is correctly rounded, so for exactly
    representable [n] and [d] this is the literal's value. *)
Definition lit (n d : Z) : t := div (of_Z n) (of_Z d).

(** Narrowing of a binary64 significand/exponent pair, [(float)x]. *)
Definition of_double (m : positive) (e : Z) : t :=
  binary_round prec emax false m e.

(** Conversion to an integer type: truncation toward zero.  C leaves the
    conversion of an infinity or NaN undefined; the model yields 0. *)
Definition to_Z (f : t) : Z :=
  match f with
  | S754_finite s m e =>
      let v := Z.shiftl (Zpos m) e in if s then - v else v
  | _ => 0
  end.

(** The rational a finite float denotes (0 for the non-finite ones). *)
Definition value (f : t) : Q :=
  match f with
  | S754_finite s m e =>
      let v := if 0 <=? e then inject_Z (Zpos m * 2 ^ e)
               else Qmake (Zpos m) (Z.to_pos (2 ^ (- e))) in
      if s then Qopp v else v
  | _ => 0%Q
  end.

Definition eqb (a b : t) : bool :=
  match a, b with
  | S754_zero s, S754_zero s' => Bool.eqb s s'
  | S754_infinity s, S754_infinity s' => Bool.eqb s s'
  | S754_nan, S754_nan => true
  | S754_finite s m e, S754_finite s' m' e' =>
      Bool.eqb s s' && Pos.eqb m m' && Z.eqb e e'
  | _, _ => false
  end.

End F32.

(* ------------------------------------------------------------------ *)
(** ** Colour schemes                                                  *)
(* ------------------------------------------------------------------ *)

(** The ten [uint32_t] fields of [ColorScheme]. *)
Record ColorScheme := mkColorScheme {
  bg          : Z;
  gauge_lime  : Z;
  scale_text  : Z;
  inner_start : Z;
  inner_end   : Z;
  needle      : Z;
  hub_fill    : Z;
  hub_border  : Z;
  rpm_text    : Z;
  brand_text  : Z
}.

(** The table [color_schemes], literal for literal. *)
Definition color_schemes : list ColorScheme :=
  [ {| bg := 0x000000; gauge_lime := 0xB7FF00; scale_text := 0x99CF11;
       inner_start := 0x222222; inner_end := 0x000000; needle := 0xFF3B30;
       hub_fill := 0x111111; hub_border := 0xB7FF00; rpm_text := 0x6C7780;
       brand_text := 0x8F8988 |};
    {| bg := 0x101010; gauge_lime := 0xFFFFFF; scale_text := 0xFF3B30;
       inner_start := 0x444444; inner_end := 0x111111; needle := 0x8F8988;
       hub_fill := 0x000000; hub_border := 0xFFFFFF; rpm_text := 0xFFFFFF;
       brand_text := 0x8F8988f |};
    {| bg := 0x000000; gauge_lime := 0x00E0FF; scale_text := 0x00E0FF;
       inner_start := 0x003344; inner_end := 0x000000; needle := 0xFFC800;
       hub_fill := 0x000000; hub_border := 0x00E0FF; rpm_text := 0x00E0FF;
       brand_text := 0x8F8988 |} ].

(** [sizeof(color_schemes) / sizeof(color_schemes[0])]. *)
Definition scheme_count : Z := Z.of_nat (List.length color_schemes).

(** The fields of a scheme, in declaration order. *)
Definition scheme_fields (cs : ColorScheme) : list Z :=
  [ bg cs; gauge_lime cs; scale_text cs; inner_start cs; inner_end cs;
    needle cs; hub_fill cs; hub_border cs; rpm_text cs; brand_text cs ].

(** A value that fits the 0xRRGGBB layout announced by the table's header
    comment. *)
Definition is_rgb24 (c : Z) : bool := (0 <=? c) && (c <=? 0xFFFFFF).

(* ------------------------------------------------------------------ *)
(** ** Gauge parameters                                                *)
(* ------------------------------------------------------------------ *)

Definition RPM_MIN : Z := 0.
Definition RPM_MAX : Z := 8000.

Definition SCALE_MIN : Z := 0.
Definition SCALE_MAX : Z := 8.

Definition GAUGE_START_DEG : Z := 135.
Definition GAUGE_SWEEP_DEG : Z := 270.

Definition NEEDLE_INNER_RATIO : F32.t := F32.lit 20 100.
Definition NEEDLE_OUTER_RATIO : F32.t := F32.lit 75 100.

Definition NEEDLE_WIDTH : Z := 6.
Definition ARC_WIDTH : Z := 14.

(** [M_PI], the binary64 nearest to pi: 0x1921FB54442D18 * 2^-51. *)
Definition M_PI_mant : positive := 0x1921FB54442D18.
Definition M_PI_exp : Z := -51.

(** Size of the packed [RpmPacket]: one [uint32_t]. *)
Definition sizeof_RpmPacket : Z := 4.

(* ------------------------------------------------------------------ *)
(** ** LVGL objects and the program state                              *)
(* ------------------------------------------------------------------ *)

(** A colour handed to LVGL: the result of [lv_color_hex] on a raw
    [uint32_t], kept symbolic. *)
Inductive lv_color_t := lv_color_hex (c : Z).

Record lv_point_t := mkPoint { pt_x : Z; pt_y : Z }.

(** What the builder configures on the meter widget. *)
Record lv_meter_t := mkMeter {
  meter_width       : Z;
  meter_height      : Z;
  meter_text_color  : lv_color_t;
  meter_scale_min   : Z;
  meter_scale_max   : Z;
  meter_angle_range : Z;
  meter_rotation    : Z;
  meter_tick_cnt    : Z;
  meter_tick_color  : lv_color_t;
  meter_major_nth   : Z;
  meter_arc_width   : Z;
  meter_arc_color   : lv_color_t;
  meter_ring_start  : lv_color_t;
  meter_ring_end    : lv_color_t
}.

(** The needle line.  Its points are not stored here: LVGL keeps the
    pointer given to [lv_line_set_points], which is the static array
    [needle_points], so the line always shows that array. *)
Record lv_line_t := mkLine {
  line_width : Z;
  line_color : lv_color_t
}.

Record lv_label_t := mkLabel {
  label_text  : string;
  label_color : lv_color_t
}.

Record lv_hub_t := mkHub {
  hub_size         : Z;
  hub_fill_color   : lv_color_t;
  hub_border_color : lv_color_t
}.

(** A timer in LVGL's timer list, as created by this sketch. *)
Record lv_timer_t := mkTimer {
  timer_id     : nat;
  timer_period : Z
}.

(** The sketch's globals, followed by the part of LVGL's own state the
    sketch reads or writes (the active screen, the display resolution and
    the timer list). *)
Record State := mkState {
  current_scheme : Z;
  rpm_timer      : option nat;
  rpm_value      : Z;
  rpm_meter      : option lv_meter_t;
  needle_line    : option lv_line_t;
  needle_points  : lv_point_t * lv_point_t;
  rpm_label      : option lv_label_t;
  rpm_unit_label : option lv_label_t;
  scr_bg         : option lv_color_t;
  scr_hub        : option lv_hub_t;
  scr_touch_btn  : bool;
  disp_hor_res   : Z;
  disp_ver_res   : Z;
  lv_timers      : list lv_timer_t
}.

Definition set_current_scheme (v : Z) (st : State) : State :=
  mkState v (rpm_timer st) (rpm_value st) (rpm_meter st) (needle_line st)
    (needle_points st) (rpm_label st) (rpm_unit_label st) (scr_bg st)
    (scr_hub st) (scr_touch_btn st) (disp_hor_res st) (disp_ver_res st)
    (lv_timers st).

Definition set_rpm_value (v : Z) (st : State) : State :=
  mkState (current_scheme st) (rpm_timer st) v (rpm_meter st)
    (needle_line st) (needle_points st) (rpm_label st) (rpm_unit_label st)
    (scr_bg st) (scr_hub st) (scr_touch_btn st) (disp_hor_res st)
    (disp_ver_res st) (lv_timers st).

Definition set_needle_points (v : lv_point_t * lv_point_t) (st : State)
  : State :=
  mkState (current_scheme st) (rpm_timer st) (rpm_value st) (rpm_meter st)
    (needle_line st) v (rpm_label st) (rpm_unit_label st) (scr_bg st)
    (scr_hub st) (scr_touch_btn st) (disp_hor_res st) (disp_ver_res st)
    (lv_timers st).

Definition set_rpm_label (v : option lv_label_t) (st : State) : State :=
  mkState (current_scheme st) (rpm_timer st) (rpm_value st) (rpm_meter st)
    (needle_line st) (needle_points st) v (rpm_unit_label st) (scr_bg st)
    (scr_hub st) (scr_touch_btn st) (disp_hor_res st) (disp_ver_res st)
    (lv_timers st).

Definition set_timer (h : option nat) (ts : list lv_timer_t) (st : State)
  : State :=
  mkState (current_scheme st) h (rpm_value st) (rpm_meter st)
    (needle_line st) (needle_points st) (rpm_label st) (rpm_unit_label st)
    (scr_bg st) (scr_hub st) (scr_touch_btn st) (disp_hor_res st)
    (disp_ver_res st) ts.

(** The zero-initialised globals at reset, on a display of the given
    resolution; nothing is on the screen and no timer exists yet. *)
Definition boot (hor ver : Z) : State :=
  {| current_scheme := 0; rpm_timer := None; rpm_value := 0;
     rpm_meter := None; needle_line := None;
     needle_points := (mkPoint 0 0, mkPoint 0 0);
     rpm_label := None; rpm_unit_label := None;
     scr_bg := None; scr_hub := None; scr_touch_btn := false;
     disp_hor_res := hor; disp_ver_res := ver; lv_timers := [] |}.

(* ------------------------------------------------------------------ *)
(** ** LVGL's timer list                                               *)
(* ------------------------------------------------------------------ *)

(** [lv_timer_del]: unlink the timer with this handle. *)
Definition lv_timer_del (h : nat) (ts : list lv_timer_t) : list lv_timer_t :=
  filter (fun tm => negb (Nat.eqb (timer_id tm) h)) ts.

(** A handle no live timer uses. *)
Definition fresh_handle (ts : list lv_timer_t) : nat :=
  S (fold_right Nat.max 0%nat (map timer_id ts)).

(** [lv_timer_create(cb, period, NULL)]: link a new timer at the head of
    the list and return its handle. *)
Definition lv_timer_create (period : Z) (ts : list lv_timer_t)
  : nat * list lv_timer_t :=
  let h := fresh_handle ts in (h, mkTimer h period :: ts).

Definition timer_live (h : nat) (ts : list lv_timer_t) : bool :=
  existsb (fun tm => Nat.eqb (timer_id tm) h) ts.

(* ------------------------------------------------------------------ *)
(** ** ESP-NOW receive callback                                        *)
(* ------------------------------------------------------------------ *)

Definition byte_val (b : byte) : Z := Z.of_N (Byte.to_N b).

(** Little-endian value of a byte string (the ESP32-S3 is little-endian). *)
Fixpoint le_decode (bs : list byte) : Z :=
  match bs with
  | [] => 0
  | b :: rest => Z.lor (byte_val b) (Z.shiftl (le_decode rest) 8)
  end.

(** [memcpy(&packet, incomingData, sizeof(packet))] followed by the read of
    [packet.rpm]. *)
Definition packet_rpm (incomingData : list byte) : Z :=
  le_decode (firstn (Z.to_nat sizeof_RpmPacket) incomingData).

Definition esp_now_recv_cb (incomingData : list byte) (len : Z) (st : State)
  : State :=
  if len <? sizeof_RpmPacket then st
  else
    let rpm := packet_rpm incomingData in
    if rpm <=? RPM_MAX then set_rpm_value rpm st else st.

(** The transport hands over a frame together with its length. *)
Definition on_packet (payload : list byte) (st : State) : State :=
  esp_now_recv_cb payload (Z.of_nat (List.length payload)) st.

(** The four bytes a sender with the same packed struct puts on the wire. *)
Definition encode_rpm (v : Z) : list byte :=
  map (fun i => match Byte.of_N (Z.to_N (Z.land (Z.shiftr v (8 * i)) 255)) with
                | Some b => b
                | None => x00
                end) [0; 1; 2; 3].

(* ------------------------------------------------------------------ *)
(** ** Needle geometry: the arithmetic of [update_needle]              *)
(* ------------------------------------------------------------------ *)

(** The two integer guards on [rpm]. *)
Definition clamp_rpm (rpm : Z) : Z :=
  let rpm := if rpm <? RPM_MIN then RPM_MIN else rpm in
  if rpm >? RPM_MAX then RPM_MAX else rpm.

(** [scale_val]: the clamped RPM over 1000, guarded again in float. *)
Definition scale_val (rpm : Z) : F32.t :=
  let s := F32.div (F32.of_Z (clamp_rpm rpm)) (F32.of_Z 1000) in
  let s := if F32.ltb s (F32.of_Z SCALE_MIN) then F32.of_Z SCALE_MIN else s in
  if F32.ltb (F32.of_Z SCALE_MAX) s then F32.of_Z SCALE_MAX else s.

(** [t]: position along the sweep. *)
Definition needle_t (rpm : Z) : F32.t :=
  F32.div (F32.sub (scale_val rpm) (F32.of_Z SCALE_MIN))
          (F32.of_Z (SCALE_MAX - SCALE_MIN)).

Definition angle_deg (rpm : Z) : F32.t :=
  F32.add (F32.of_Z GAUGE_START_DEG)
          (F32.mul (needle_t rpm) (F32.of_Z GAUGE_SWEEP_DEG)).

Definition angle_rad (rpm : Z) : F32.t :=
  F32.div (F32.mul (angle_deg rpm) (F32.of_double M_PI_mant M_PI_exp))
          (F32.of_Z 180).

(** [outer_r] as first assigned: the meter's radius less half the arc. *)
Definition meter_outer_r (meter_w : Z) : F32.t :=
  let meter_radius := Z.quot meter_w 2 in
  F32.sub (F32.of_Z meter_radius) (F32.mul (F32.of_Z ARC_WIDTH) (F32.lit 5 10)).

(** [inner_r], taken from [outer_r] before the latter is rescaled. *)
Definition needle_inner_r (meter_w : Z) : F32.t :=
  F32.mul (meter_outer_r meter_w) NEEDLE_INNER_RATIO.

(** [outer_r] after [outer_r *= NEEDLE_OUTER_RATIO]. *)
Definition needle_outer_r (meter_w : Z) : F32.t :=
  F32.mul (meter_outer_r meter_w) NEEDLE_OUTER_RATIO.

(** [lv_snprintf(buf, sizeof buf, "%ld", v)] into a buffer of [size]
    bytes: the decimal text, cut to [size - 1] characters. *)
Definition lv_snprintf_ld (size : nat) (v : Z) : string :=
  substring 0 (size - 1) (NilEmpty.string_of_int (Z.to_int v)).

(** The spec's words for the normalised measurement and the needle angle:
    [t = clamp(m, 0, 8000) / 8000] and [angle_deg = 135 + t * 270], read in
    binary32 like the code they describe. *)
Definition spec_t (m : Z) : F32.t :=
  F32.div (F32.of_Z (clamp_rpm m)) (F32.of_Z 8000).

Definition spec_angle_deg (m : Z) : F32.t :=
  F32.add (F32.of_Z 135) (F32.mul (spec_t m) (F32.of_Z 270)).

(** The same affine map over the rationals, without any rounding. *)
Definition exact_angle_deg (m : Z) : Q :=
  (135 + 270 * inject_Z (clamp_rpm m) / 8000)%Q.

Inductive lv_event_code_t :=
| LV_EVENT_PRESSED
| LV_EVENT_RELEASED
| LV_EVENT_CLICKED.

Definition is_clicked (c : lv_event_code_t) : bool :=
  match c with LV_EVENT_CLICKED => true | _ => false end.

(** What reaches the sketch from outside: a frame from the radio, the
    LVGL loop firing a timer, the LVGL loop delivering an input event to
    the full-screen button. *)
Inductive event :=
| Packet (payload : list byte)
| TimerFire (h : nat)
| Touch (code : lv_event_code_t).

Section Sketch.

(** libm's single-precision cosine and sine. *)
Variable cosf sinf : F32.t -> F32.t.

(** The two endpoints written to [needle_points]. *)
Definition needle_segment (rpm dw dh meter_w : Z) : lv_point_t * lv_point_t :=
  let a := angle_rad rpm in
  let cx := Z.quot dw 2 in
  let cy := Z.quot dh 2 in
  let inner_r := needle_inner_r meter_w in
  let outer_r := needle_outer_r meter_w in
  (mkPoint (F32.to_Z (F32.add (F32.of_Z cx) (F32.mul (cosf a) inner_r)))
           (F32.to_Z (F32.add (F32.of_Z cy) (F32.mul (sinf a) inner_r))),
   mkPoint (F32.to_Z (F32.add (F32.of_Z cx) (F32.mul (cosf a) outer_r)))
           (F32.to_Z (F32.add (F32.of_Z cy) (F32.mul (sinf a) outer_r)))).

(** [update_needle]: nothing happens while the meter or the line is NULL;
    otherwise the endpoints are recomputed from the display resolution and
    from [lv_obj_get_width(rpm_meter)], read here as the width the builder
    gave the meter. *)
Definition update_needle (rpm : Z) (st : State) : State :=
  match rpm_meter st, needle_line st with
  | Some meter, Some _ =>
      set_needle_points
        (needle_segment rpm (disp_hor_res st) (disp_ver_res st)
                        (meter_width meter)) st
  | _, _ => st
  end.

Definition rpm_timer_cb (st : State) : State :=
  let rpm := rpm_value st in
  let st := update_needle rpm st in
  match rpm_label st with
  | Some l =>
      set_rpm_label (Some (mkLabel (lv_snprintf_ld 16 rpm) (label_color l))) st
  | None => st
  end.

(** [color_schemes[current_scheme]]; the index is in range on every path
    of the sketch (see [scheme_index_valid]), the default is never used. *)
Definition scheme_at (i : Z) : ColorScheme :=
  nth (Z.to_nat i) color_schemes (mkColorScheme 0 0 0 0 0 0 0 0 0 0).

(** The object-creating part of the builder: [lv_obj_clean] drops every
    child of the screen, then each widget is created afresh in the colours
    of the current scheme. *)
Definition build_scene (st : State) : State :=
  let cs := scheme_at (current_scheme st) in
  let color_lime := lv_color_hex (gauge_lime cs) in
  {| current_scheme := current_scheme st;
     rpm_timer := rpm_timer st;
     rpm_value := rpm_value st;
     rpm_meter :=
       Some {| meter_width := 370; meter_height := 370;
               meter_text_color := lv_color_hex (scale_text cs);
               meter_scale_min := SCALE_MIN; meter_scale_max := SCALE_MAX;
               meter_angle_range := GAUGE_SWEEP_DEG;
               meter_rotation := GAUGE_START_DEG;
               meter_tick_cnt := 41; meter_tick_color := color_lime;
               meter_major_nth := 5;
               meter_arc_width := ARC_WIDTH; meter_arc_color := color_lime;
               meter_ring_start := lv_color_hex (inner_start cs);
               meter_ring_end := lv_color_hex (inner_end cs) |};
     needle_line :=
       Some {| line_width := NEEDLE_WIDTH;
               line_color := lv_color_hex (needle cs) |};
     needle_points := needle_points st;
     rpm_label := Some (mkLabel "0" (lv_color_hex (rpm_text cs)));
     rpm_unit_label :=
       Some (mkLabel "RAUH Welt BEGRIFF" (lv_color_hex (brand_text cs)));
     scr_bg := Some (lv_color_hex (bg cs));
     scr_hub := Some {| hub_size := 26;
                        hub_fill_color := lv_color_hex (hub_fill cs);
                        hub_border_color := lv_color_hex (hub_border cs) |};
     scr_touch_btn := true;
     disp_hor_res := disp_hor_res st;
     disp_ver_res := disp_ver_res st;
     lv_timers := lv_timers st |}.

(** [if (rpm_timer != NULL) { lv_timer_del(rpm_timer); rpm_timer = NULL; }] *)
Definition timer_teardown (st : State) : State :=
  match rpm_timer st with
  | Some h => set_timer None (lv_timer_del h (lv_timers st)) st
  | None => st
  end.

(** [rpm_timer = lv_timer_create(rpm_timer_cb, 100, NULL);] *)
Definition timer_arm (st : State) : State :=
  let (h, ts) := lv_timer_create 100 (lv_timers st) in
  set_timer (Some h) ts st.

Definition Lvgl_CreateRpmGauge (st : State) : State :=
  let st := build_scene st in
  let st := update_needle (rpm_value st) st in
  let st := timer_teardown st in
  timer_arm st.

(** The cursor update of the touch callback. *)
Definition next_scheme (cur : Z) : Z :=
  let cur := cur + 1 in
  if cur >=? scheme_count then 0 else cur.

(** The touch callback; its [printf] to the log is not part of the state. *)
Definition touch_color_cycle_cb (code : lv_event_code_t) (st : State)
  : State :=
  if negb (is_clicked code) then st
  else Lvgl_CreateRpmGauge (set_current_scheme (next_scheme (current_scheme st)) st).

(** [setup()]: the hardware bring-up aside, build the first scene. *)
Definition setup (hor ver : Z) : State := Lvgl_CreateRpmGauge (boot hor ver).

Definition step (ev : event) (st : State) : State :=
  match ev with
  | Packet payload => on_packet payload st
  | TimerFire h =>
      if timer_live h (lv_timers st) then rpm_timer_cb st else st
  | Touch code =>
      if scr_touch_btn st then touch_color_cycle_cb code st else st
  end.

Definition run (evs : list event) (st : State) : State :=
  fold_left (fun s ev => step ev s) evs st.

(* ------------------------------------------------------------------ *)
(** ** Checks that are settled by evaluation                           *)
(* ------------------------------------------------------------------ *)

(** The three facts about one in-range RPM that are settled by running the
    binary32 arithmetic: the code's [t] is the single quotient by 8000, its
    angle is the affine image of that, and the angle is within 2^-15 degree
    of the unrounded affine map. *)
Definition angle_check (c : Z) : bool :=
  F32.eqb (needle_t c) (spec_t c)
  && F32.eqb (angle_deg c) (spec_angle_deg c)
  && Qle_bool (Qabs (F32.value (angle_deg c) - exact_angle_deg c)) (1 # 32768).

(** Whether taking the inner radius from the rescaled outer radius would
    give another number than the code's inner radius. *)
Definition radii_differ (w : Z) : bool :=
  negb (F32.eqb (needle_inner_r w)
                (F32.mul (needle_outer_r w) NEEDLE_INNER_RATIO)).

(** Positions (scheme, field) of the table whose value does not fit
    0xRRGGBB. *)
Definition oversized_fields : list (nat * nat) :=
  flat_map
    (fun i =>
       map (fun j => (i, j))
           (filter (fun j => negb (is_rgb24 (nth j (scheme_fields (scheme_at (Z.of_nat i))) 0)))
                   (seq 0 10)))
    (seq 0 (List.length color_schemes)).

(** The timer list holds exactly the timer [rpm_timer] points to, armed
    with a period of 100 ms. *)
Definition timer_inv (st : State) : Prop :=
  lv_timers st = match rpm_timer st with
                 | Some h => [mkTimer h 100]
                 | None => []
                 end.

(** A refresh timer is armed: [rpm_timer] holds the handle of the one
    timer in the list, whose period is 100 ms. *)
Definition timer_armed (st : State) : Prop :=
  exists h, rpm_timer st = Some h /\ lv_timers st = [mkTimer h 100].

(** The text the centre label shows, if the label exists. *)
Definition label_shown (st : State) : option string :=
  option_map label_text (rpm_label st).

(** A stand-in for [cosf] and [sinf] where a closed term must be run. *)
Definition const_one (x : F32.t) : F32.t := F32.of_Z 1.

(* ------------------------------------------------------------------ *)
(** ** Further notions used by the properties below                    *)
(* ------------------------------------------------------------------ *)

(** The float guards of [scale_val] leave the quotient as it is, and the
    quotient lies in [0, 8]. *)
Definition scale_check (c : Z) : bool :=
  F32.eqb (scale_val c) (F32.div (F32.of_Z c) (F32.of_Z 1000))
  && Qle_bool 0 (F32.value (scale_val c))
  && Qle_bool (F32.value (scale_val c)) 8.

(** One more RPM gives a strictly larger angle. *)
Definition angle_step_check (c : Z) : bool :=
  negb (Qle_bool (F32.value (angle_deg (c + 1))) (F32.value (angle_deg c))).

(** The inner radius is positive, below the outer one, and the outer one
    is within the meter's radius. *)
Definition radii_check (w : Z) : bool :=
  negb (Qle_bool (F32.value (needle_inner_r w)) 0)
  && negb (Qle_bool (F32.value (needle_outer_r w))
                    (F32.value (needle_inner_r w)))
  && Qle_bool (F32.value (needle_outer_r w)) (inject_Z (Z.quot w 2)).

(** The 16-byte buffer of the timer callback holds the whole decimal
    text. *)
Definition label_text_check (v : Z) : bool :=
  String.eqb (lv_snprintf_ld 16 v) (NilEmpty.string_of_int (Z.to_int v)).

(** What a payload makes of the stored measurement [cur]. *)
Definition stored_after (cur : Z) (payload : list byte) : Z :=
  if (4 <=? Z.of_nat (List.length payload))
     && (packet_rpm payload <=? RPM_MAX)
  then packet_rpm payload else cur.

(** The scene on the screen is the one the builder makes for the current
    cursor, the cursor is a valid index of the table, and every handle the
    sketch keeps is set. *)
Definition scene_built (st : State) : Prop :=
  0 <= current_scheme st < scheme_count /\
  rpm_meter st = rpm_meter (build_scene st) /\
  needle_line st = needle_line (build_scene st) /\
  option_map label_color (rpm_label st)
    = option_map label_color (rpm_label (build_scene st)) /\
  rpm_unit_label st = rpm_unit_label (build_scene st) /\
  scr_bg st = scr_bg (build_scene st) /\
  scr_hub st = scr_hub (build_scene st) /\
  scr_touch_btn st = true.

(** The sketch together with the radio: whether [esp_now_register_recv_cb]
    has been called. *)
Record System := mkSystem {
  sys_state          : State;
  recv_cb_registered : bool
}.

(** [setupEspNow()], given whether [esp_now_init()] returned [ESP_OK]: on
    failure it logs and returns before registering the callback. *)
Definition setupEspNow (esp_now_init_ok : bool) (sys : System) : System :=
  if negb esp_now_init_ok then sys
  else mkSystem (sys_state sys) true.

(** [setup()] with the radio: [setupEspNow()], then the first build. *)
Definition setup_system (esp_now_init_ok : bool) (hor ver : Z) : System :=
  let sys := setupEspNow esp_now_init_ok (mkSystem (boot hor ver) false) in
  mkSystem (Lvgl_CreateRpmGauge (sys_state sys)) (recv_cb_registered sys).

(** A frame reaches [esp_now_recv_cb] only through a registered callback;
    timer and touch events come from the LVGL loop as before. *)
Definition system_step (ev : event) (sys : System) : System :=
  match ev with
  | Packet _ =>
      if recv_cb_registered sys
      then mkSystem (step ev (sys_state sys)) (recv_cb_registered sys)
      else sys
  | _ => mkSystem (step ev (sys_state sys)) (recv_cb_registered sys)
  end.

Definition system_run (evs : list event) (sys : System) : System :=
  fold_left (fun s ev => system_step ev s) evs sys.

Definition is_packet (ev : event) : bool :=
  match ev with Packet _ => true | _ => false end.

(** The unrounded radian value of the unrounded angle, with the code's
    [M_PI] (0x1921FB54442D18 * 2^-51) for pi. *)
Definition exact_angle_rad (m : Z) : Q :=
  (exact_angle_deg m * Qmake (Zpos M_PI_mant) (2 ^ 51) / 180)%Q.

(** The angle handed to [cosf] and [sinf] is within 2 * 10^-6 radian of
    the unrounded one. *)
Definition angle_rad_check (c : Z) : bool :=
  Qle_bool (Qabs (F32.value (angle_rad c) - exact_angle_rad c)) (1 # 500000).

(** One more RPM gives a strictly larger angle in radians. *)
Definition angle_rad_step_check (c : Z) : bool :=
  negb (Qle_bool (F32.value (angle_rad (c + 1))) (F32.value (angle_rad c))).

(** [rpm_timer = lv_timer_create(rpm_timer_cb, 100, NULL);] when the pointer
    LVGL returns is [h]. *)
Definition timer_arm_at (h : nat) (st : State) : State :=
  set_timer (Some h) (mkTimer h 100 :: lv_timers st) st.

(** The builder when [lv_timer_create] returns [h]. *)
Definition Lvgl_CreateRpmGauge_at (h : nat) (st : State) : State :=
  let st := build_scene st in
  let st := update_needle (rpm_value st) st in
  let st := timer_teardown st in
  timer_arm_at h st.

(* ------------------------------------------------------------------ *)
(** ** Equality of floats                                              *)
(* ------------------------------------------------------------------ *)

Lemma F32_eqb_eq (a b : F32.t) : F32.eqb a b = true <-> a = b.
Proof.
  split.
  - destruct a as [s| s| |s m e], b as [s'| s'| |s' m' e'];
      simpl; try discriminate; try reflexivity; intro H.
    + apply Bool.eqb_prop in H. now subst.
    + apply Bool.eqb_prop in H. now subst.
    + apply andb_true_iff in H as [H He].
      apply andb_true_iff in H as [Hs Hm].
      apply Bool.eqb_prop in Hs. apply Pos.eqb_eq in Hm.
      apply Z.eqb_eq in He. now subst.
  - intros <-. destruct a as [s| s| |s m e]; simpl;
      rewrite ?Bool.eqb_reflx, ?Pos.eqb_refl, ?Z.eqb_refl; reflexivity.
Qed.

(* ------------------------------------------------------------------ *)
(** ** Clamping and the needle angle                                   *)
(* ------------------------------------------------------------------ *)

Lemma clamp_rpm_range (m : Z) : 0 <= clamp_rpm m <= 8000.
Proof.
  unfold clamp_rpm, RPM_MIN, RPM_MAX.
  destruct (m <? 0) eqn:Hlo.
  - simpl. lia.
  - apply Z.ltb_ge in Hlo.
    destruct (m >? 8000) eqn:Hhi; [lia|].
    rewrite Z.gtb_ltb in Hhi. apply Z.ltb_ge in Hhi. lia.
Qed.

Lemma clamp_rpm_fix (c : Z) : 0 <= c <= 8000 -> clamp_rpm c = c.
Proof.
  intros [Hlo Hhi]. unfold clamp_rpm, RPM_MIN, RPM_MAX.
  destruct (c <? 0) eqn:E; [apply Z.ltb_lt in E; lia|].
  destruct (c >? 8000) eqn:E'; [|reflexivity].
  rewrite Z.gtb_ltb in E'. apply Z.ltb_lt in E'. lia.
Qed.

Lemma clamp_rpm_idem (m : Z) : clamp_rpm (clamp_rpm m) = clamp_rpm m.
Proof. apply clamp_rpm_fix, clamp_rpm_range. Qed.

Lemma clamp_rpm_below (m : Z) : m < RPM_MIN -> clamp_rpm m = RPM_MIN.
Proof.
  unfold clamp_rpm, RPM_MIN, RPM_MAX. intro H.
  destruct (m <? 0) eqn:E; [reflexivity|]. apply Z.ltb_ge in E. lia.
Qed.

Lemma clamp_rpm_above (m : Z) : RPM_MAX < m -> clamp_rpm m = RPM_MAX.
Proof.
  unfold clamp_rpm, RPM_MIN, RPM_MAX. intro H.
  destruct (m <? 0) eqn:E; [apply Z.ltb_lt in E; lia|].
  destruct (m >? 8000) eqn:E'; [reflexivity|].
  rewrite Z.gtb_ltb in E'. apply Z.ltb_ge in E'. lia.
Qed.

(** Everything downstream of the guards sees only the clamped value. *)
Lemma scale_val_clamp (m : Z) : scale_val m = scale_val (clamp_rpm m).
Proof. unfold scale_val. now rewrite clamp_rpm_idem. Qed.

Lemma needle_t_clamp (m : Z) : needle_t m = needle_t (clamp_rpm m).
Proof. unfold needle_t. now rewrite scale_val_clamp. Qed.

Lemma angle_deg_clamp (m : Z) : angle_deg m = angle_deg (clamp_rpm m).
Proof. unfold angle_deg. now rewrite needle_t_clamp. Qed.

Lemma angle_rad_clamp (m : Z) : angle_rad m = angle_rad (clamp_rpm m).
Proof. unfold angle_rad. now rewrite angle_deg_clamp. Qed.

Lemma needle_segment_clamp (m dw dh w : Z) :
  needle_segment m dw dh w = needle_segment (clamp_rpm m) dw dh w.
Proof. unfold needle_segment. now rewrite angle_rad_clamp. Qed.

Lemma update_needle_clamp (m : Z) (st : State) :
  update_needle m st = update_needle (clamp_rpm m) st.
Proof.
  unfold update_needle.
  destruct (rpm_meter st), (needle_line st); try reflexivity.
  now rewrite needle_segment_clamp.
Qed.

(** A property checked on every integer of [0 .. n] holds on that range. *)
Lemma forall_upto (P : Z -> bool) (n : nat) :
  forallb P (map Z.of_nat (seq 0 (S n))) = true ->
  forall z, 0 <= z <= Z.of_nat n -> P z = true.
Proof.
  intros H z Hz. rewrite forallb_forall in H. apply H.
  apply in_map_iff. exists (Z.to_nat z). split; [lia|].
  apply in_seq. lia.
Qed.


Lemma angle_check_all (c : Z) : 0 <= c <= 8000 -> angle_check c = true.
Proof.
  intro Hc. apply (forall_upto angle_check (Z.to_nat 8000)); [|lia].
  vm_compute. reflexivity.
Qed.

(** The code's [t] and angle against the spec's formulas, for every [m]. *)
Lemma angle_deg_spec (m : Z) :
  needle_t m = spec_t m /\
  angle_deg m = spec_angle_deg m /\
  (Qabs (F32.value (angle_deg m) - exact_angle_deg m) <= 1 # 32768)%Q.
Proof.
  pose proof (angle_check_all (clamp_rpm m) (clamp_rpm_range m)) as H.
  unfold angle_check in H.
  apply andb_true_iff in H as [H Hq].
  apply andb_true_iff in H as [Ht Ha].
  apply F32_eqb_eq in Ht. apply F32_eqb_eq in Ha.
  apply Qle_bool_iff in Hq.
  assert (Hs : spec_t (clamp_rpm m) = spec_t m)
    by (unfold spec_t; now rewrite clamp_rpm_idem).
  split; [now rewrite needle_t_clamp, Ht|].
  split; [rewrite angle_deg_clamp, Ha; unfold spec_angle_deg; now rewrite Hs|].
  rewrite angle_deg_clamp.
  unfold exact_angle_deg in *. now rewrite clamp_rpm_idem in Hq.
Qed.

Lemma angle_rad_check_all (c : Z) : 0 <= c <= 8000 -> angle_rad_check c = true.
Proof.
  intro Hc. apply (forall_upto angle_rad_check (Z.to_nat 8000)); [|lia].
  vm_compute. reflexivity.
Qed.

Lemma angle_rad_error (m : Z) :
  (Qabs (F32.value (angle_rad m) - exact_angle_rad m) <= 1 # 500000)%Q.
Proof.
  pose proof (angle_rad_check_all (clamp_rpm m) (clamp_rpm_range m)) as H.
  unfold angle_rad_check in H. apply Qle_bool_iff in H.
  rewrite <- angle_rad_clamp in H.
  unfold exact_angle_rad, exact_angle_deg in *.
  now rewrite clamp_rpm_idem in H.
Qed.

(** What [update_needle] writes once the scene exists: both endpoints
    lie in the direction [angle_rad rpm], seen from the screen centre. *)
Lemma update_needle_points (rpm : Z) (st : State)
      (meter : lv_meter_t) (line : lv_line_t) :
  rpm_meter st = Some meter -> needle_line st = Some line ->
  needle_points (update_needle rpm st) =
    (mkPoint
       (F32.to_Z (F32.add (F32.of_Z (Z.quot (disp_hor_res st) 2))
                    (F32.mul (cosf (angle_rad rpm))
                             (needle_inner_r (meter_width meter)))))
       (F32.to_Z (F32.add (F32.of_Z (Z.quot (disp_ver_res st) 2))
                    (F32.mul (sinf (angle_rad rpm))
                             (needle_inner_r (meter_width meter))))),
     mkPoint
       (F32.to_Z (F32.add (F32.of_Z (Z.quot (disp_hor_res st) 2))
                    (F32.mul (cosf (angle_rad rpm))
                             (needle_outer_r (meter_width meter)))))
       (F32.to_Z (F32.add (F32.of_Z (Z.quot (disp_ver_res st) 2))
                    (F32.mul (sinf (angle_rad rpm))
                             (needle_outer_r (meter_width meter)))))).
Proof.
  intros Hm Hl. unfold update_needle. rewrite Hm, Hl. reflexivity.
Qed.

(** C1. For every measurement [m] the needle angle is the affine map
    [135 + t * 270] of [t = clamp(m, 0, 8000) / 8000]: the code's [t] and
    [angle_deg] equal the spec's formulas evaluated in binary32, and the
    angle differs from the unrounded map by at most 2^-15 degree.  At 0 the
    angle is 135, at 4000 [t] is 1/2 and the angle 270, at 8000 the angle
    is 405, which is 45 modulo 360.  This is the angle of the needle that
    [update_needle] draws: the value given to [cosf] and [sinf] is that
    affine angle times [(float)M_PI] over 180 (within 2 * 10^-6 radian of
    the unrounded conversion), and on a built scene both endpoints written
    to [needle_points] are the screen centre plus the cosine and sine of
    it times the inner and the outer radius. *)
Theorem angle_deg_affine (m : Z) :
  needle_t m = spec_t m /\
  angle_deg m = spec_angle_deg m /\
  (Qabs (F32.value (angle_deg m) - exact_angle_deg m) <= 1 # 32768)%Q /\
  angle_deg 0 = F32.of_Z 135 /\
  needle_t 4000 = F32.lit 1 2 /\
  angle_deg 4000 = F32.of_Z 270 /\
  angle_deg 8000 = F32.of_Z 405 /\
  405 mod 360 = 45 /\
  angle_rad m =
    F32.div (F32.mul (spec_angle_deg m) (F32.of_double M_PI_mant M_PI_exp))
            (F32.of_Z 180) /\
  (Qabs (F32.value (angle_rad m) - exact_angle_rad m) <= 1 # 500000)%Q /\
  forall (st : State) (meter : lv_meter_t) (line : lv_line_t),
    rpm_meter st = Some meter -> needle_line st = Some line ->
    let a := F32.div (F32.mul (spec_angle_deg m)
                              (F32.of_double M_PI_mant M_PI_exp))
                     (F32.of_Z 180) in
    let cx := F32.of_Z (Z.quot (disp_hor_res st) 2) in
    let cy := F32.of_Z (Z.quot (disp_ver_res st) 2) in
    let inner_r := needle_inner_r (meter_width meter) in
    let outer_r := needle_outer_r (meter_width meter) in
    needle_points (update_needle m st) =
      (mkPoint (F32.to_Z (F32.add cx (F32.mul (cosf a) inner_r)))
               (F32.to_Z (F32.add cy (F32.mul (sinf a) inner_r))),
       mkPoint (F32.to_Z (F32.add cx (F32.mul (cosf a) outer_r)))
               (F32.to_Z (F32.add cy (F32.mul (sinf a) outer_r)))).
Proof.
  destruct (angle_deg_spec m) as (Ht & Ha & Hq).
  assert (Hrad : angle_rad m =
            F32.div (F32.mul (spec_angle_deg m)
                             (F32.of_double M_PI_mant M_PI_exp))
                    (F32.of_Z 180))
    by (unfold angle_rad; now rewrite Ha).
  split; [exact Ht|]. split; [exact Ha|]. split; [exact Hq|].
  split; [vm_compute; reflexivity|]. split; [vm_compute; reflexivity|].
  split; [vm_compute; reflexivity|]. split; [vm_compute; reflexivity|].
  split; [reflexivity|]. split; [exact Hrad|].
  split; [apply angle_rad_error|].
  intros st meter line Hm Hl a cx cy inner_r outer_r.
  rewrite (update_needle_points m st meter line Hm Hl).
  unfold a, cx, cy, inner_r, outer_r. rewrite Hrad. reflexivity.
Qed.

(** C2. Clamping to [0, 8000] is idempotent, and the needle computation
    saturates: below 0 it is the computation at 0, above 8000 the
    computation at 8000. *)
Theorem update_needle_saturates (m : Z) (st : State) :
  clamp_rpm (clamp_rpm m) = clamp_rpm m /\
  (m < 0 ->
     update_needle m st = update_needle 0 st /\
     forall dw dh w, needle_segment m dw dh w = needle_segment 0 dw dh w) /\
  (8000 < m ->
     update_needle m st = update_needle 8000 st /\
     forall dw dh w, needle_segment m dw dh w = needle_segment 8000 dw dh w).
Proof.
  split; [apply clamp_rpm_idem|]. split; intro H.
  - split; [|intros dw dh w].
    + rewrite update_needle_clamp. now rewrite (clamp_rpm_below m H).
    + rewrite needle_segment_clamp. now rewrite (clamp_rpm_below m H).
  - split; [|intros dw dh w].
    + rewrite update_needle_clamp. now rewrite (clamp_rpm_above m H).
    + rewrite needle_segment_clamp. now rewrite (clamp_rpm_above m H).
Qed.

(* ------------------------------------------------------------------ *)
(** ** The needle's radii                                              *)
(* ------------------------------------------------------------------ *)

Lemma half_arc_width : F32.mul (F32.of_Z ARC_WIDTH) (F32.lit 5 10) = F32.of_Z 7.
Proof. vm_compute. reflexivity. Qed.


Lemma radii_differ_all (w : Z) : 16 <= w <= 4096 -> radii_differ w = true.
Proof.
  intro Hw.
  assert (H : (w <? 16) || radii_differ w = true).
  { apply (forall_upto (fun z => (z <? 16) || radii_differ z) (Z.to_nat 4096));
      [vm_compute; reflexivity | lia]. }
  destruct (w <? 16) eqn:E; [apply Z.ltb_lt in E; lia | exact H].
Qed.

(** C8. The radii follow the order of the code: with [/] the integer
    division of the code, the first outer radius is [w/2 - 7]; the inner
    endpoint radius is that value times 0.20, taken before the rescaling;
    the outer endpoint radius is the same value times 0.75.  The inner
    radius is not 0.20 times the rescaled outer radius (for every meter
    width from 16 to 4096, and so for the 370 the builder sets, where the
    radii are 178, about 35.6 and 133.5 against about 26.7), and these are
    the radii [update_needle] puts into the two endpoints. *)
Theorem needle_radii_order (w : Z) :
  meter_outer_r w = F32.sub (F32.of_Z (Z.quot w 2)) (F32.of_Z 7) /\
  needle_inner_r w =
    F32.mul (F32.sub (F32.of_Z (Z.quot w 2)) (F32.of_Z 7)) (F32.lit 20 100) /\
  needle_outer_r w =
    F32.mul (F32.sub (F32.of_Z (Z.quot w 2)) (F32.of_Z 7)) (F32.lit 75 100) /\
  (16 <= w <= 4096 ->
     needle_inner_r w <> F32.mul (needle_outer_r w) (F32.lit 20 100)) /\
  (F32.value (meter_outer_r 370) == 178)%Q /\
  (F32.value (needle_outer_r 370) == 267 # 2)%Q /\
  (Qabs (F32.value (needle_inner_r 370) - (178 # 5)) <= 1 # 262144)%Q /\
  (Qabs (F32.value (F32.mul (needle_outer_r 370) (F32.lit 20 100)) - (267 # 10))
     <= 1 # 262144)%Q /\
  (forall rpm st meter line,
     rpm_meter st = Some meter -> needle_line st = Some line ->
     meter_width meter = w ->
     let a := angle_rad rpm in
     let cx := F32.of_Z (Z.quot (disp_hor_res st) 2) in
     let cy := F32.of_Z (Z.quot (disp_ver_res st) 2) in
     needle_points (update_needle rpm st) =
       (mkPoint (F32.to_Z (F32.add cx (F32.mul (cosf a) (needle_inner_r w))))
                (F32.to_Z (F32.add cy (F32.mul (sinf a) (needle_inner_r w)))),
        mkPoint (F32.to_Z (F32.add cx (F32.mul (cosf a) (needle_outer_r w))))
                (F32.to_Z (F32.add cy (F32.mul (sinf a) (needle_outer_r w)))))).
Proof.
  assert (H0 : meter_outer_r w = F32.sub (F32.of_Z (Z.quot w 2)) (F32.of_Z 7))
    by (unfold meter_outer_r; now rewrite half_arc_width).
  split; [exact H0|].
  split; [unfold needle_inner_r; now rewrite H0|].
  split; [unfold needle_outer_r; now rewrite H0|].
  split.
  { intros Hw Heq. pose proof (radii_differ_all w Hw) as Hd.
    unfold radii_differ in Hd. apply negb_true_iff in Hd.
    apply F32_eqb_eq in Heq. unfold NEEDLE_INNER_RATIO in Hd. congruence. }
  split; [vm_compute; reflexivity|].
  split; [vm_compute; reflexivity|].
  split; [apply Qle_bool_iff; vm_compute; reflexivity|].
  split; [apply Qle_bool_iff; vm_compute; reflexivity|].
  intros rpm st meter line Hm Hl Hw a cx cy.
  unfold update_needle. rewrite Hm, Hl, Hw. reflexivity.
Qed.

(* ------------------------------------------------------------------ *)
(** ** The colour table                                                *)
(* ------------------------------------------------------------------ *)


(** C10. Not every colour of the table is a 24-bit value: the tenth field
    ([brand_text]) of scheme 1 is 0x8F8988F, above 0xFFFFFF; it is the only
    such entry, and the scene built for scheme 1 hands it to
    [lv_color_hex] for the brand label. *)
Theorem brand_text_scheme1_not_rgb24 :
  brand_text (scheme_at 1) = 0x8F8988F /\
  0xFFFFFF < brand_text (scheme_at 1) /\
  is_rgb24 (brand_text (scheme_at 1)) = false /\
  oversized_fields = [(1%nat, 9%nat)] /\
  ~ Forall (fun cs => forallb is_rgb24 (scheme_fields cs) = true) color_schemes /\
  forall st,
    option_map label_color
      (rpm_unit_label (build_scene (set_current_scheme 1 st)))
      = Some (lv_color_hex 0x8F8988F).
Proof.
  split; [reflexivity|]. split; [reflexivity|]. split; [reflexivity|].
  split; [vm_compute; reflexivity|]. split.
  - intro H. rewrite Forall_forall in H.
    specialize (H (scheme_at 1)).
    assert (Hin : In (scheme_at 1) color_schemes)
      by (vm_compute; right; left; reflexivity).
    apply H in Hin. vm_compute in Hin. discriminate.
  - intro st. reflexivity.
Qed.

(* ------------------------------------------------------------------ *)
(** ** The receive callback                                            *)
(* ------------------------------------------------------------------ *)

Lemma byte_val_range (b : byte) : 0 <= byte_val b < 256.
Proof. unfold byte_val. pose proof (Byte.to_N_bounded b). lia. Qed.

Lemma byte_val_of_N (x : Z) :
  0 <= x < 256 ->
  byte_val (match Byte.of_N (Z.to_N x) with Some b => b | None => x00 end) = x.
Proof.
  intro Hx. destruct (Byte.of_N (Z.to_N x)) as [b|] eqn:E.
  - apply Byte.to_of_N in E. unfold byte_val. rewrite E. lia.
  - apply Byte.of_N_None_iff in E. lia.
Qed.

Lemma le_decode_nonneg (bs : list byte) : 0 <= le_decode bs.
Proof.
  induction bs as [|b rest IH]; cbn [le_decode]; [lia|].
  apply Z.lor_nonneg. split; [apply byte_val_range | now apply Z.shiftl_nonneg].
Qed.

Lemma packet_rpm_nonneg (payload : list byte) : 0 <= packet_rpm payload.
Proof. apply le_decode_nonneg. Qed.

(** Decoding what [encode_rpm] produced gives the value back, whatever
    follows the four bytes. *)
Lemma packet_rpm_encode (v : Z) (tail : list byte) :
  0 <= v < 2 ^ 32 -> packet_rpm (encode_rpm v ++ tail) = v.
Proof.
  intro Hv. unfold packet_rpm, encode_rpm, sizeof_RpmPacket.
  change (Z.to_nat 4) with 4%nat.
  cbn [map app firstn le_decode].
  rewrite !byte_val_of_N
    by (rewrite Z.land_ones with (n := 8) by lia; apply Z.mod_pos_bound; lia).
  change 255 with (Z.ones 8).
  apply Z.bits_inj'. intros n Hn.
  rewrite !Z.lor_spec.
  repeat match goal with
  | |- context [Z.testbit (Z.shiftl ?a 8) ?k] =>
      destruct (Z_lt_dec k 8);
      [ rewrite (Z.shiftl_spec_low a 8 k) by lia
      | rewrite (Z.shiftl_spec a 8 k) by lia; rewrite ?Z.lor_spec ]
  end.
  all: rewrite ?Z.bits_0, ?orb_false_r.
  all: repeat match goal with
  | |- context [Z.testbit (Z.land ?a (Z.ones 8)) ?k] =>
      rewrite (Z.land_spec a (Z.ones 8) k), (Z.shiftr_spec) by lia;
      (rewrite (Z.ones_spec_low 8 k) by lia)
      || (rewrite (Z.ones_spec_high 8 k) by lia)
  end.
  all: rewrite ?andb_true_r, ?andb_false_r, ?orb_false_r, ?orb_false_l.
  all: try (f_equal; lia).
  symmetry. destruct (Z.eq_dec v 0) as [->|Hv0]; [apply Z.bits_0|].
  apply Z.bits_above_log2; [lia|].
  assert (Z.log2 v < 32) by (apply Z.log2_lt_pow2; lia). lia.
Qed.

Lemma encode_rpm_length (v : Z) : List.length (encode_rpm v) = 4%nat.
Proof. reflexivity. Qed.

Lemma esp_now_recv_cb_long (data : list byte) (len : Z) (st : State) :
  sizeof_RpmPacket <= len ->
  esp_now_recv_cb data len st =
    if packet_rpm data <=? RPM_MAX then set_rpm_value (packet_rpm data) st
    else st.
Proof.
  intro H. unfold esp_now_recv_cb.
  destruct (len <? sizeof_RpmPacket) eqn:E; [apply Z.ltb_lt in E; lia|].
  reflexivity.
Qed.

(** C3. A payload shorter than the wire format (4 bytes) is dropped: the
    callback returns the state it was given, the stored measurement
    included. *)
Theorem short_packet_discarded (payload : list byte) (st : State) :
  (List.length payload < 4)%nat ->
  on_packet payload st = st /\
  rpm_value (on_packet payload st) = rpm_value st /\
  forall data len, len < sizeof_RpmPacket -> esp_now_recv_cb data len st = st.
Proof.
  intro Hlen.
  assert (Hcb : forall data len,
             len < sizeof_RpmPacket -> esp_now_recv_cb data len st = st).
  { intros data len H. unfold esp_now_recv_cb.
    apply Z.ltb_lt in H. now rewrite H. }
  assert (Hp : on_packet payload st = st).
  { unfold on_packet. apply Hcb. unfold sizeof_RpmPacket. lia. }
  split; [exact Hp|]. split; [now rewrite Hp | exact Hcb].
Qed.

(** C4. A payload of valid length is accepted exactly when the decoded
    value does not exceed 8000: then the measurement becomes that value,
    otherwise the state is left as it was.  A payload encoding 8001 leaves
    the measurement unchanged, one encoding 8000 sets it to 8000. *)
Theorem recv_accepts_iff_in_range (payload : list byte) (st : State) :
  (4 <= List.length payload)%nat ->
  (packet_rpm payload <= RPM_MAX ->
     on_packet payload st = set_rpm_value (packet_rpm payload) st /\
     rpm_value (on_packet payload st) = packet_rpm payload) /\
  (RPM_MAX < packet_rpm payload -> on_packet payload st = st) /\
  (forall tail,
     packet_rpm (encode_rpm 8001 ++ tail) = 8001 /\
     on_packet (encode_rpm 8001 ++ tail) st = st) /\
  (forall tail,
     packet_rpm (encode_rpm 8000 ++ tail) = 8000 /\
     rpm_value (on_packet (encode_rpm 8000 ++ tail) st) = 8000).
Proof.
  intro Hlen.
  assert (Hgen : forall p, (4 <= List.length p)%nat ->
             on_packet p st =
               if packet_rpm p <=? RPM_MAX then set_rpm_value (packet_rpm p) st
               else st).
  { intros p Hp. unfold on_packet. apply esp_now_recv_cb_long.
    unfold sizeof_RpmPacket. lia. }
  assert (Hl : forall v tail, (4 <= List.length (encode_rpm v ++ tail))%nat).
  { intros v tail. rewrite length_app, encode_rpm_length. lia. }
  split; [|split; [|split]].
  - intro H. rewrite (Hgen payload Hlen).
    apply Z.leb_le in H. rewrite H. split; reflexivity.
  - intro H. rewrite (Hgen payload Hlen).
    destruct (packet_rpm payload <=? RPM_MAX) eqn:E; [|reflexivity].
    apply Z.leb_le in E. lia.
  - intro tail.
    assert (Hd : packet_rpm (encode_rpm 8001 ++ tail) = 8001)
      by (apply packet_rpm_encode; lia).
    split; [exact Hd|]. rewrite (Hgen _ (Hl 8001 tail)), Hd. reflexivity.
  - intro tail.
    assert (Hd : packet_rpm (encode_rpm 8000 ++ tail) = 8000)
      by (apply packet_rpm_encode; lia).
    split; [exact Hd|]. rewrite (Hgen _ (Hl 8000 tail)), Hd. reflexivity.
Qed.

(* ------------------------------------------------------------------ *)
(** ** What each routine leaves alone                                  *)
(* ------------------------------------------------------------------ *)

Lemma esp_now_recv_cb_range (data : list byte) (len : Z) (st : State) :
  0 <= rpm_value st <= RPM_MAX ->
  0 <= rpm_value (esp_now_recv_cb data len st) <= RPM_MAX.
Proof.
  intro H. unfold esp_now_recv_cb.
  destruct (len <? sizeof_RpmPacket); [exact H|].
  destruct (packet_rpm data <=? RPM_MAX) eqn:E; [|exact H].
  apply Z.leb_le in E. pose proof (packet_rpm_nonneg data).
  unfold set_rpm_value. cbn [rpm_value]. lia.
Qed.

Lemma rpm_value_update_needle (rpm : Z) (st : State) :
  rpm_value (update_needle rpm st) = rpm_value st.
Proof.
  unfold update_needle. destruct (rpm_meter st), (needle_line st); reflexivity.
Qed.

Lemma rpm_value_rpm_timer_cb (st : State) :
  rpm_value (rpm_timer_cb st) = rpm_value st.
Proof.
  unfold rpm_timer_cb.
  destruct (rpm_label (update_needle (rpm_value st) st));
    cbn [rpm_value set_rpm_label]; apply rpm_value_update_needle.
Qed.

Lemma rpm_value_timer_teardown (st : State) :
  rpm_value (timer_teardown st) = rpm_value st.
Proof. unfold timer_teardown. destruct (rpm_timer st); reflexivity. Qed.

Lemma rpm_value_Lvgl_CreateRpmGauge (st : State) :
  rpm_value (Lvgl_CreateRpmGauge st) = rpm_value st.
Proof.
  unfold Lvgl_CreateRpmGauge, timer_arm, lv_timer_create.
  cbn [rpm_value set_timer].
  now rewrite rpm_value_timer_teardown, rpm_value_update_needle.
Qed.

Lemma rpm_value_touch (code : lv_event_code_t) (st : State) :
  rpm_value (touch_color_cycle_cb code st) = rpm_value st.
Proof.
  unfold touch_color_cycle_cb. destruct (negb (is_clicked code)); [reflexivity|].
  now rewrite rpm_value_Lvgl_CreateRpmGauge.
Qed.

Lemma step_rpm_range (ev : event) (st : State) :
  0 <= rpm_value st <= RPM_MAX -> 0 <= rpm_value (step ev st) <= RPM_MAX.
Proof.
  intro H. destruct ev as [payload | h | code]; cbn [step].
  - now apply esp_now_recv_cb_range.
  - destruct (timer_live h (lv_timers st)); [|exact H].
    now rewrite rpm_value_rpm_timer_cb.
  - destruct (scr_touch_btn st); [|exact H]. now rewrite rpm_value_touch.
Qed.

Lemma run_rpm_range (evs : list event) (st : State) :
  0 <= rpm_value st <= RPM_MAX -> 0 <= rpm_value (run evs st) <= RPM_MAX.
Proof.
  revert st. induction evs as [|ev evs IH]; intros st H; [exact H|].
  cbn [run fold_left]. apply IH. now apply step_rpm_range.
Qed.

(** C5. The stored measurement is always in [0, 8000]: it is 0 at reset,
    it stays in range over any sequence of received payloads, and over any
    interleaving of packets, timer ticks and touch events, before and
    after [setup]. *)
Theorem rpm_value_in_range
  (hor ver : Z) (payloads : list (list byte)) (evs : list event) :
  rpm_value (boot hor ver) = 0 /\
  0 <= rpm_value (fold_left (fun s p => on_packet p s) payloads (boot hor ver))
    <= 8000 /\
  0 <= rpm_value (run evs (boot hor ver)) <= 8000 /\
  0 <= rpm_value (run evs (setup hor ver)) <= 8000.
Proof.
  assert (Hboot : 0 <= rpm_value (boot hor ver) <= RPM_MAX)
    by (cbn [rpm_value boot]; unfold RPM_MAX; lia).
  split; [reflexivity|]. split; [|split].
  - generalize dependent (boot hor ver). intro st.
    revert st. induction payloads as [|p ps IH]; intros st H; [exact H|].
    cbn [fold_left]. apply IH. now apply esp_now_recv_cb_range.
  - now apply run_rpm_range.
  - apply run_rpm_range. unfold setup. now rewrite rpm_value_Lvgl_CreateRpmGauge.
Qed.

(* ------------------------------------------------------------------ *)
(** ** The scheme cursor                                               *)
(* ------------------------------------------------------------------ *)

Lemma scheme_count_pos : 0 < scheme_count.
Proof. reflexivity. Qed.

Lemma next_scheme_mod (i : Z) :
  0 <= i < scheme_count -> next_scheme i = (i + 1) mod scheme_count.
Proof.
  intro Hi. unfold next_scheme.
  destruct (i + 1 >=? scheme_count) eqn:E.
  - rewrite Z.geb_leb in E. apply Z.leb_le in E.
    replace (i + 1) with scheme_count by lia.
    now rewrite Z.mod_same by lia.
  - rewrite Z.geb_leb in E. apply Z.leb_gt in E.
    now rewrite Z.mod_small by lia.
Qed.

Lemma iter_next_scheme (n : nat) (i : Z) :
  0 <= i < scheme_count ->
  Nat.iter n next_scheme i = (i + Z.of_nat n) mod scheme_count.
Proof.
  intro Hi. induction n as [|n IH].
  - cbn [Nat.iter nat_rect]. rewrite Z.add_0_r. now rewrite Z.mod_small.
  - change (Nat.iter (S n) next_scheme i)
      with (next_scheme (Nat.iter n next_scheme i)).
    rewrite IH.
    rewrite next_scheme_mod by (apply Z.mod_pos_bound, scheme_count_pos).
    rewrite Z.add_mod_idemp_l by (pose proof scheme_count_pos; lia).
    f_equal. lia.
Qed.

Lemma current_scheme_update_needle (rpm : Z) (st : State) :
  current_scheme (update_needle rpm st) = current_scheme st.
Proof.
  unfold update_needle. destruct (rpm_meter st), (needle_line st); reflexivity.
Qed.

Lemma current_scheme_timer_teardown (st : State) :
  current_scheme (timer_teardown st) = current_scheme st.
Proof. unfold timer_teardown. destruct (rpm_timer st); reflexivity. Qed.

Lemma current_scheme_Lvgl_CreateRpmGauge (st : State) :
  current_scheme (Lvgl_CreateRpmGauge st) = current_scheme st.
Proof.
  unfold Lvgl_CreateRpmGauge, timer_arm, lv_timer_create.
  cbn [current_scheme set_timer].
  now rewrite current_scheme_timer_teardown, current_scheme_update_needle.
Qed.

Lemma current_scheme_tap (st : State) :
  current_scheme (touch_color_cycle_cb LV_EVENT_CLICKED st)
    = next_scheme (current_scheme st).
Proof.
  unfold touch_color_cycle_cb. cbn [is_clicked negb].
  now rewrite current_scheme_Lvgl_CreateRpmGauge.
Qed.

Lemma current_scheme_taps (n : nat) (st : State) :
  current_scheme (Nat.iter n (touch_color_cycle_cb LV_EVENT_CLICKED) st)
    = Nat.iter n next_scheme (current_scheme st).
Proof.
  induction n as [|n IH]; [reflexivity|].
  change (Nat.iter (S n) (touch_color_cycle_cb LV_EVENT_CLICKED) st)
    with (touch_color_cycle_cb LV_EVENT_CLICKED
            (Nat.iter n (touch_color_cycle_cb LV_EVENT_CLICKED) st)).
  rewrite current_scheme_tap, IH. reflexivity.
Qed.

(** C6. With the cursor at a valid index of the registry (3 schemes in this
    build), as many taps as there are schemes bring the cursor and the
    scheme it selects back to where they were, and so does any multiple of
    that number; after every tap the cursor is in [0, N). *)
Theorem scheme_cycle (st : State) (k : nat) :
  0 <= current_scheme st < scheme_count ->
  let tap := touch_color_cycle_cb LV_EVENT_CLICKED in
  let N := Z.to_nat scheme_count in
  N = 3%nat /\
  current_scheme (Nat.iter N tap st) = current_scheme st /\
  current_scheme (Nat.iter (N * k) tap st) = current_scheme st /\
  scheme_at (current_scheme (Nat.iter (N * k) tap st))
    = scheme_at (current_scheme st) /\
  forall n, 0 <= current_scheme (Nat.iter n tap st) < scheme_count.
Proof.
  intros Hi tap N.
  assert (Hmul : forall j,
             current_scheme (Nat.iter (N * j) tap st) = current_scheme st).
  { intro j. unfold tap. rewrite current_scheme_taps, iter_next_scheme by exact Hi.
    replace (Z.of_nat (N * j)) with (Z.of_nat j * scheme_count)
      by (unfold N; pose proof scheme_count_pos; lia).
    rewrite Z.mod_add by (pose proof scheme_count_pos; lia).
    now apply Z.mod_small. }
  split; [reflexivity|]. split; [|split; [|split]].
  - specialize (Hmul 1%nat). now rewrite Nat.mul_1_r in Hmul.
  - apply Hmul.
  - now rewrite Hmul.
  - intro n. unfold tap. rewrite current_scheme_taps, iter_next_scheme by exact Hi.
    apply Z.mod_pos_bound, scheme_count_pos.
Qed.


(* ------------------------------------------------------------------ *)
(** ** The refresh timer                                               *)
(* ------------------------------------------------------------------ *)

Ltac by_cases_on_handles :=
  intros;
  unfold timer_teardown, update_needle, rpm_timer_cb, esp_now_recv_cb;
  repeat match goal with
  | |- context [match ?x with Some _ => _ | None => _ end] => destruct x
  | |- context [if ?b then _ else _] => destruct b
  end;
  reflexivity.

Lemma timers_update_needle (rpm : Z) (st : State) :
  lv_timers (update_needle rpm st) = lv_timers st /\
  rpm_timer (update_needle rpm st) = rpm_timer st.
Proof. split; by_cases_on_handles. Qed.

Lemma timers_rpm_timer_cb (st : State) :
  lv_timers (rpm_timer_cb st) = lv_timers st /\
  rpm_timer (rpm_timer_cb st) = rpm_timer st.
Proof.
  unfold rpm_timer_cb.
  destruct (rpm_label (update_needle (rpm_value st) st));
    cbn [lv_timers rpm_timer set_rpm_label]; apply timers_update_needle.
Qed.

Lemma timers_esp_now_recv_cb (data : list byte) (len : Z) (st : State) :
  lv_timers (esp_now_recv_cb data len st) = lv_timers st /\
  rpm_timer (esp_now_recv_cb data len st) = rpm_timer st.
Proof. split; by_cases_on_handles. Qed.

Lemma timer_armed_inv (st : State) : timer_armed st -> timer_inv st.
Proof. intros [h [Hh Hts]]. unfold timer_inv. now rewrite Hh. Qed.

Lemma timer_teardown_clears (st : State) :
  timer_inv st ->
  lv_timers (timer_teardown st) = [] /\ rpm_timer (timer_teardown st) = None.
Proof.
  unfold timer_inv, timer_teardown. intro H.
  destruct (rpm_timer st) as [h|] eqn:E.
  - cbn [lv_timers rpm_timer set_timer]. rewrite H.
    unfold lv_timer_del. cbn [filter timer_id]. rewrite Nat.eqb_refl.
    split; reflexivity.
  - rewrite E. split; [exact H | reflexivity].
Qed.

Lemma timer_arm_armed (st : State) :
  lv_timers st = [] -> timer_armed (timer_arm st).
Proof.
  intro H. unfold timer_arm, lv_timer_create. rewrite H.
  exists (fresh_handle []). split; reflexivity.
Qed.

Lemma Lvgl_CreateRpmGauge_armed (st : State) :
  timer_inv st -> timer_armed (Lvgl_CreateRpmGauge st).
Proof.
  intro H. unfold Lvgl_CreateRpmGauge. apply timer_arm_armed.
  apply timer_teardown_clears. unfold timer_inv.
  destruct (timers_update_needle (rpm_value (build_scene st)) (build_scene st))
    as [Hts Hh].
  rewrite Hts, Hh. exact H.
Qed.

Lemma step_timer_armed (ev : event) (st : State) :
  timer_armed st -> timer_armed (step ev st).
Proof.
  intros H. destruct ev as [payload | h | code]; cbn [step].
  - unfold on_packet, timer_armed.
    destruct (timers_esp_now_recv_cb payload (Z.of_nat (List.length payload)) st)
      as [Hts Hh].
    rewrite Hts, Hh. exact H.
  - destruct (timer_live h (lv_timers st)); [|exact H].
    unfold timer_armed. destruct (timers_rpm_timer_cb st) as [Hts Hh].
    rewrite Hts, Hh. exact H.
  - destruct (scr_touch_btn st); [|exact H].
    unfold touch_color_cycle_cb. destruct (negb (is_clicked code)); [exact H|].
    apply Lvgl_CreateRpmGauge_armed. apply timer_armed_inv in H. exact H.
Qed.

Lemma run_timer_armed (evs : list event) (st : State) :
  timer_armed st -> timer_armed (run evs st).
Proof.
  revert st. induction evs as [|ev evs IH]; intros st H; [exact H|].
  cbn [run fold_left]. apply IH. now apply step_timer_armed.
Qed.

Lemma step_unbuilt (ev : event) (st : State) :
  lv_timers st = [] /\ scr_touch_btn st = false ->
  lv_timers (step ev st) = [] /\ scr_touch_btn (step ev st) = false.
Proof.
  intros [Hts Hb]. destruct ev as [payload | h | code]; cbn [step].
  - unfold on_packet, esp_now_recv_cb.
    destruct (_ <? _); [tauto|]. destruct (_ <=? _); [|tauto].
    cbn [lv_timers scr_touch_btn set_rpm_value]. tauto.
  - rewrite Hts. cbn [timer_live existsb]. tauto.
  - rewrite Hb. tauto.
Qed.

Lemma run_unbuilt (evs : list event) (st : State) :
  lv_timers st = [] /\ scr_touch_btn st = false ->
  lv_timers (run evs st) = [] /\ scr_touch_btn (run evs st) = false.
Proof.
  revert st. induction evs as [|ev evs IH]; intros st H; [exact H|].
  cbn [run fold_left]. apply IH. now apply step_unbuilt.
Qed.

(** C7. At most one refresh timer is alive at any time.  Before the first
    build the timer list is empty; in every state reached after [setup],
    over any packets, ticks and touches, the list holds exactly the timer
    [rpm_timer] points to.  Each run of the scene builder first deletes
    that timer (the list is empty and [rpm_timer] is NULL after the
    teardown) and then arms a single new timer with a period of 100 ms. *)
Theorem one_refresh_timer (hor ver : Z) (evs : list event) :
  lv_timers (run evs (boot hor ver)) = [] /\
  let st := run evs (setup hor ver) in
  let scene := update_needle (rpm_value (build_scene st)) (build_scene st) in
  timer_armed st /\
  (List.length (lv_timers st) <= 1)%nat /\
  lv_timers scene = lv_timers st /\
  lv_timers (timer_teardown scene) = [] /\
  rpm_timer (timer_teardown scene) = None /\
  Lvgl_CreateRpmGauge st = timer_arm (timer_teardown scene) /\
  timer_armed (Lvgl_CreateRpmGauge st) /\
  Forall (fun tm => timer_period tm = 100) (lv_timers (Lvgl_CreateRpmGauge st)) /\
  List.length (lv_timers (Lvgl_CreateRpmGauge st)) = 1%nat.
Proof.
  split; [apply run_unbuilt; split; reflexivity|].
  intros st scene.
  assert (Harmed : timer_armed st).
  { apply run_timer_armed. apply Lvgl_CreateRpmGauge_armed. reflexivity. }
  assert (Hinv : timer_inv st) by now apply timer_armed_inv.
  destruct (timers_update_needle (rpm_value (build_scene st)) (build_scene st))
    as [Hts Hh].
  assert (Hscene : timer_inv scene).
  { unfold timer_inv, scene. rewrite Hts, Hh. exact Hinv. }
  destruct (timer_teardown_clears scene Hscene) as [Hnil Hnone].
  assert (Hnew : timer_armed (Lvgl_CreateRpmGauge st))
    by now apply Lvgl_CreateRpmGauge_armed.
  split; [exact Harmed|].
  split; [destruct Harmed as [h [_ ->]]; cbn [List.length]; lia|].
  split; [exact Hts|]. split; [exact Hnil|]. split; [exact Hnone|].
  split; [reflexivity|]. split; [exact Hnew|].
  destruct Hnew as [h' [_ ->]].
  split; [repeat constructor | reflexivity].
Qed.

(* ------------------------------------------------------------------ *)
(** ** A tap and the rebuild it triggers                               *)
(* ------------------------------------------------------------------ *)

(** The builder, with the needle update resolved: the fresh scene always
    has a meter (370 wide) and a line, so the update goes through. *)
Lemma Lvgl_CreateRpmGauge_unfold (st : State) :
  Lvgl_CreateRpmGauge st =
    timer_arm (timer_teardown
      (set_needle_points
         (needle_segment (rpm_value st) (disp_hor_res st) (disp_ver_res st) 370)
         (build_scene st))).
Proof. reflexivity. Qed.

Lemma scene_timer_teardown (st : State) :
  rpm_label (timer_teardown st) = rpm_label st /\
  needle_points (timer_teardown st) = needle_points st /\
  rpm_meter (timer_teardown st) = rpm_meter st /\
  needle_line (timer_teardown st) = needle_line st /\
  scr_bg (timer_teardown st) = scr_bg st /\
  disp_hor_res (timer_teardown st) = disp_hor_res st /\
  disp_ver_res (timer_teardown st) = disp_ver_res st.
Proof. unfold timer_teardown. destruct (rpm_timer st); repeat split. Qed.

(** C9 (as the code has it). A tap rebuilds the scene in the next scheme's
    colours and keeps the stored measurement; the needle endpoints are
    recomputed at once from that measurement; the centre label is created
    with the text "0" and shows the measurement again after the next
    refresh tick, which leaves the needle where the rebuild put it. *)
Theorem tap_rebuild_effect (st : State) :
  let st' := touch_color_cycle_cb LV_EVENT_CLICKED st in
  rpm_value st' = rpm_value st /\
  current_scheme st' = next_scheme (current_scheme st) /\
  scr_bg st' = Some (lv_color_hex (bg (scheme_at (current_scheme st')))) /\
  needle_points st' =
    needle_segment (rpm_value st) (disp_hor_res st) (disp_ver_res st) 370 /\
  label_shown st' = Some "0"%string /\
  label_shown (rpm_timer_cb st') = Some (lv_snprintf_ld 16 (rpm_value st)) /\
  needle_points (rpm_timer_cb st') = needle_points st'.
Proof.
  intro st'.
  assert (Hv : rpm_value st' = rpm_value st) by apply rpm_value_touch.
  assert (Hc : current_scheme st' = next_scheme (current_scheme st))
    by apply current_scheme_tap.
  set (st1 := set_current_scheme (next_scheme (current_scheme st)) st).
  assert (Hst' : st' = Lvgl_CreateRpmGauge st1) by reflexivity.
  set (seg := needle_segment (rpm_value st) (disp_hor_res st)
                (disp_ver_res st) 370).
  set (scene := set_needle_points seg (build_scene st1)).
  assert (Hu : st' = timer_arm (timer_teardown scene))
    by (rewrite Hst'; apply Lvgl_CreateRpmGauge_unfold).
  destruct (scene_timer_teardown scene)
    as (Hl & Hp & Hm & Hn & Hbg & Hhor & Hver).
  assert (Hlabel : rpm_label st' = rpm_label scene)
    by (rewrite Hu; exact Hl).
  assert (Hpts : needle_points st' = seg) by (rewrite Hu; exact Hp).
  assert (Hmeter : rpm_meter st' = rpm_meter scene) by (rewrite Hu; exact Hm).
  assert (Hline : needle_line st' = needle_line scene) by (rewrite Hu; exact Hn).
  assert (Hres : disp_hor_res st' = disp_hor_res st
                 /\ disp_ver_res st' = disp_ver_res st)
    by (rewrite Hu; split; [exact Hhor | exact Hver]).
  split; [exact Hv|]. split; [exact Hc|].
  split; [rewrite Hc, Hu; exact Hbg|].
  split; [exact Hpts|].
  split; [unfold label_shown; rewrite Hlabel; reflexivity|].
  assert (Hupd : update_needle (rpm_value st') st' = set_needle_points seg st').
  { unfold update_needle. rewrite Hmeter, Hline. cbn [rpm_meter needle_line
      scene set_needle_points build_scene meter_width].
    destruct Hres as [-> ->]. rewrite Hv. reflexivity. }
  unfold rpm_timer_cb. rewrite Hupd.
  cbn [rpm_label set_needle_points]. rewrite Hlabel.
  cbn [rpm_label scene set_needle_points build_scene].
  split; [unfold label_shown; cbn [rpm_label set_rpm_label option_map label_text];
          now rewrite Hv|].
  cbn [needle_points set_rpm_label set_needle_points]. now rewrite Hpts.
Qed.

(* ------------------------------------------------------------------ *)
(** ** More on the needle arithmetic                                   *)
(* ------------------------------------------------------------------ *)

Lemma scale_check_all (c : Z) : 0 <= c <= 8000 -> scale_check c = true.
Proof.
  intro Hc. apply (forall_upto scale_check (Z.to_nat 8000)); [|lia].
  vm_compute. reflexivity.
Qed.

(** X1. The two float guards on [scale_val] never fire: for every [rpm]
    the scale value is the clamped RPM divided by 1000 in binary32, and it
    lies in [0, 8]. *)
Theorem scale_val_guards_idle (rpm : Z) :
  scale_val rpm = F32.div (F32.of_Z (clamp_rpm rpm)) (F32.of_Z 1000) /\
  (0 <= F32.value (scale_val rpm) <= 8)%Q.
Proof.
  pose proof (scale_check_all (clamp_rpm rpm) (clamp_rpm_range rpm)) as H.
  unfold scale_check in H.
  apply andb_true_iff in H as [H Hhi].
  apply andb_true_iff in H as [Heq Hlo].
  apply F32_eqb_eq in Heq. apply Qle_bool_iff in Hlo, Hhi.
  rewrite <- scale_val_clamp in Heq, Hlo, Hhi.
  split; [exact Heq | split; [exact Hlo | exact Hhi]].
Qed.

Lemma angle_step_all (c : Z) :
  0 <= c < 8000 ->
  (F32.value (angle_deg c) < F32.value (angle_deg (c + 1)))%Q.
Proof.
  intro Hc.
  assert (H : angle_step_check c = true).
  { apply (forall_upto angle_step_check (Z.to_nat 7999)); [|lia].
    vm_compute. reflexivity. }
  unfold angle_step_check in H. apply negb_true_iff in H.
  apply Qnot_le_lt. intro Hle. apply Qle_bool_iff in Hle. congruence.
Qed.

Lemma angle_deg_increasing (n : nat) (c : Z) :
  0 <= c -> c + Z.of_nat (S n) <= 8000 ->
  (F32.value (angle_deg c) < F32.value (angle_deg (c + Z.of_nat (S n))))%Q.
Proof.
  intros Hc. induction n as [|n IH]; intro Hd.
  - apply angle_step_all. lia.
  - apply Qlt_trans with (F32.value (angle_deg (c + Z.of_nat (S n)))).
    + apply IH. lia.
    + replace (c + Z.of_nat (S (S n))) with (c + Z.of_nat (S n) + 1) by lia.
      apply angle_step_all. lia.
Qed.

Lemma angle_deg_lt (c d : Z) :
  0 <= c -> c < d -> d <= 8000 ->
  (F32.value (angle_deg c) < F32.value (angle_deg d))%Q.
Proof.
  intros Hc Hcd Hd.
  replace d with (c + Z.of_nat (S (Z.to_nat (d - c - 1)))) by lia.
  apply angle_deg_increasing; lia.
Qed.

Lemma clamp_rpm_mono (m1 m2 : Z) : m1 <= m2 -> clamp_rpm m1 <= clamp_rpm m2.
Proof.
  intro H. unfold clamp_rpm, RPM_MIN, RPM_MAX.
  destruct (m1 <? 0) eqn:E1, (m2 <? 0) eqn:E2;
    try apply Z.ltb_lt in E1; try apply Z.ltb_ge in E1;
    try apply Z.ltb_lt in E2; try apply Z.ltb_ge in E2;
    repeat match goal with
    | |- context [?x >? 8000] =>
        let E := fresh "E" in
        destruct (x >? 8000) eqn:E; rewrite Z.gtb_ltb in E;
        [apply Z.ltb_lt in E | apply Z.ltb_ge in E]
    end; lia.
Qed.

Lemma angle_rad_step_all (c : Z) :
  0 <= c < 8000 ->
  (F32.value (angle_rad c) < F32.value (angle_rad (c + 1)))%Q.
Proof.
  intro Hc.
  assert (H : angle_rad_step_check c = true).
  { apply (forall_upto angle_rad_step_check (Z.to_nat 7999)); [|lia].
    vm_compute. reflexivity. }
  unfold angle_rad_step_check in H. apply negb_true_iff in H.
  apply Qnot_le_lt. intro Hle. apply Qle_bool_iff in Hle. congruence.
Qed.

(** A function that grows at every step of [0 .. 8000] grows over it. *)
Lemma increasing_by_steps (f : Z -> Q) :
  (forall c, 0 <= c < 8000 -> (f c < f (c + 1)%Z)%Q) ->
  forall c d, 0 <= c -> c < d -> d <= 8000 -> (f c < f d)%Q.
Proof.
  intros Hstep c d Hc Hcd Hd.
  replace d with (c + Z.of_nat (S (Z.to_nat (d - c - 1)))) in * by lia.
  induction (Z.to_nat (d - c - 1)) as [|n IH].
  - apply Hstep. lia.
  - apply Qlt_trans with (f (c + Z.of_nat (S n))).
    + apply IH; lia.
    + replace (c + Z.of_nat (S (S n))) with (c + Z.of_nat (S n) + 1) by lia.
      apply Hstep. lia.
Qed.

Lemma angle_rad_lt (c d : Z) :
  0 <= c -> c < d -> d <= 8000 ->
  (F32.value (angle_rad c) < F32.value (angle_rad d))%Q.
Proof.
  apply (increasing_by_steps (fun z => F32.value (angle_rad z))).
  exact angle_rad_step_all.
Qed.

(** X2. The needle never turns back.  A larger RPM gives an angle at least
    as large, and strictly larger between two different values of
    [0, 8000]; this holds for the angle in degrees, which stays between
    135 and 405, and for its radian value, which stays between 2.356194
    and 7.068584 (3 pi / 4 and 9 pi / 4) and is what [update_needle] gives
    to [cosf] and [sinf] for both endpoints of the needle. *)
Theorem angle_deg_monotone (m1 m2 : Z) :
  m1 <= m2 ->
  (F32.value (angle_deg m1) <= F32.value (angle_deg m2))%Q /\
  (clamp_rpm m1 < clamp_rpm m2 ->
     (F32.value (angle_deg m1) < F32.value (angle_deg m2))%Q) /\
  (135 <= F32.value (angle_deg m1) <= 405)%Q /\
  angle_rad m1 =
    F32.div (F32.mul (angle_deg m1) (F32.of_double M_PI_mant M_PI_exp))
            (F32.of_Z 180) /\
  (F32.value (angle_rad m1) <= F32.value (angle_rad m2))%Q /\
  (clamp_rpm m1 < clamp_rpm m2 ->
     (F32.value (angle_rad m1) < F32.value (angle_rad m2))%Q) /\
  (2356194 # 1000000 <= F32.value (angle_rad m1) <= 7068584 # 1000000)%Q /\
  forall (st : State) (meter : lv_meter_t) (line : lv_line_t),
    rpm_meter st = Some meter -> needle_line st = Some line ->
    let cx := F32.of_Z (Z.quot (disp_hor_res st) 2) in
    let cy := F32.of_Z (Z.quot (disp_ver_res st) 2) in
    let inner_r := needle_inner_r (meter_width meter) in
    let outer_r := needle_outer_r (meter_width meter) in
    needle_points (update_needle m1 st) =
      (mkPoint
         (F32.to_Z (F32.add cx (F32.mul (cosf (angle_rad m1)) inner_r)))
         (F32.to_Z (F32.add cy (F32.mul (sinf (angle_rad m1)) inner_r))),
       mkPoint
         (F32.to_Z (F32.add cx (F32.mul (cosf (angle_rad m1)) outer_r)))
         (F32.to_Z (F32.add cy (F32.mul (sinf (angle_rad m1)) outer_r)))).
Proof.
  intro H.
  pose proof (clamp_rpm_range m1) as R1. pose proof (clamp_rpm_range m2) as R2.
  pose proof (clamp_rpm_mono m1 m2 H) as Hm.
  assert (Hlt : clamp_rpm m1 < clamp_rpm m2 ->
                (F32.value (angle_deg m1) < F32.value (angle_deg m2))%Q).
  { intro Hc. rewrite (angle_deg_clamp m1), (angle_deg_clamp m2).
    apply angle_deg_lt; lia. }
  assert (Hle : forall c d, 0 <= c -> c <= d -> d <= 8000 ->
                (F32.value (angle_deg c) <= F32.value (angle_deg d))%Q).
  { intros c d Hc Hcd Hd. destruct (Z.eq_dec c d) as [->|Hne].
    - apply Qle_refl.
    - apply Qlt_le_weak. apply angle_deg_lt; lia. }
  assert (Hrlt : clamp_rpm m1 < clamp_rpm m2 ->
                 (F32.value (angle_rad m1) < F32.value (angle_rad m2))%Q).
  { intro Hc. rewrite (angle_rad_clamp m1), (angle_rad_clamp m2).
    apply angle_rad_lt; lia. }
  assert (Hrle : forall c d, 0 <= c -> c <= d -> d <= 8000 ->
                 (F32.value (angle_rad c) <= F32.value (angle_rad d))%Q).
  { intros c d Hc Hcd Hd. destruct (Z.eq_dec c d) as [->|Hne].
    - apply Qle_refl.
    - apply Qlt_le_weak. apply angle_rad_lt; lia. }
  split; [rewrite (angle_deg_clamp m1), (angle_deg_clamp m2); apply Hle; lia|].
  split; [exact Hlt|].
  split.
  { rewrite (angle_deg_clamp m1). split.
    - apply Qle_trans with (F32.value (angle_deg 0));
        [vm_compute; discriminate | apply Hle; lia].
    - apply Qle_trans with (F32.value (angle_deg 8000));
        [apply Hle; lia | vm_compute; discriminate]. }
  split; [reflexivity|].
  split; [rewrite (angle_rad_clamp m1), (angle_rad_clamp m2); apply Hrle; lia|].
  split; [exact Hrlt|].
  split.
  { rewrite (angle_rad_clamp m1). split.
    - apply Qle_trans with (F32.value (angle_rad 0));
        [vm_compute; discriminate | apply Hrle; lia].
    - apply Qle_trans with (F32.value (angle_rad 8000));
        [apply Hrle; lia | vm_compute; discriminate]. }
  intros st meter line Hmt Hl cx cy inner_r outer_r.
  exact (update_needle_points m1 st meter line Hmt Hl).
Qed.

Lemma radii_check_all (w : Z) : 16 <= w <= 4096 -> radii_check w = true.
Proof.
  intro Hw.
  assert (H : (w <? 16) || radii_check w = true).
  { apply (forall_upto (fun z => (z <? 16) || radii_check z) (Z.to_nat 4096));
      [vm_compute; reflexivity | lia]. }
  destruct (w <? 16) eqn:E; [apply Z.ltb_lt in E; lia | exact H].
Qed.

(** X3. For a meter 16 to 4096 wide the needle runs outward and stays
    inside the meter: the inner radius is positive, the outer radius is
    larger, and the outer radius does not exceed half the width. *)
Theorem needle_radii_ordered (w : Z) :
  16 <= w <= 4096 ->
  (0 < F32.value (needle_inner_r w))%Q /\
  (F32.value (needle_inner_r w) < F32.value (needle_outer_r w))%Q /\
  (F32.value (needle_outer_r w) <= inject_Z (Z.quot w 2))%Q.
Proof.
  intro Hw. pose proof (radii_check_all w Hw) as H. unfold radii_check in H.
  apply andb_true_iff in H as [H Hout].
  apply andb_true_iff in H as [Hpos Hlt].
  apply negb_true_iff in Hpos, Hlt. apply Qle_bool_iff in Hout.
  split; [|split; [|exact Hout]].
  - apply Qnot_le_lt. intro Hle. apply Qle_bool_iff in Hle. congruence.
  - apply Qnot_le_lt. intro Hle. apply Qle_bool_iff in Hle. congruence.
Qed.

(* ------------------------------------------------------------------ *)
(** ** More on the wire format and the receive callback                *)
(* ------------------------------------------------------------------ *)

Lemma lor_shift_byte (a b : Z) :
  0 <= a < 256 -> 0 <= b -> Z.lor a (Z.shiftl b 8) = a + 256 * b.
Proof.
  intros Ha Hb.
  assert (Hland : Z.land a (Z.shiftl b 8) = 0).
  { apply Z.bits_inj'. intros n Hn. rewrite Z.land_spec, Z.bits_0.
    destruct (Z_lt_dec n 8) as [Hlt|Hge].
    - rewrite Z.shiftl_spec_low by lia. apply andb_false_r.
    - destruct (Z.eq_dec a 0) as [->|Hnz]; [now rewrite Z.bits_0|].
      rewrite (Z.bits_above_log2 a n); [reflexivity | lia |].
      assert (Z.log2 a < 8) by (apply Z.log2_lt_pow2; lia). lia. }
  rewrite <- Z.lxor_lor, <- Z.add_nocarry_lxor by exact Hland.
  rewrite Z.shiftl_mul_pow2 by lia. change (2 ^ 8) with 256. lia.
Qed.

Lemma le_decode_cons (b : byte) (rest : list byte) :
  le_decode (b :: rest) = byte_val b + 256 * le_decode rest.
Proof.
  cbn [le_decode]. apply lor_shift_byte;
    [apply byte_val_range | apply le_decode_nonneg].
Qed.

Lemma le_decode_bound (bs : list byte) :
  le_decode bs < 2 ^ (8 * Z.of_nat (List.length bs)).
Proof.
  induction bs as [|b rest IH]; [cbn; lia|].
  rewrite le_decode_cons. pose proof (byte_val_range b) as Hb.
  replace (8 * Z.of_nat (List.length (b :: rest)))
    with (8 + 8 * Z.of_nat (List.length rest)) by (cbn [List.length]; lia).
  rewrite Z.pow_add_r by lia. change (2 ^ 8) with 256. lia.
Qed.

Lemma packet_rpm_four (b0 b1 b2 b3 : byte) (rest : list byte) :
  packet_rpm (b0 :: b1 :: b2 :: b3 :: rest) =
    byte_val b0 + 2 ^ 8 * byte_val b1 + 2 ^ 16 * byte_val b2
    + 2 ^ 24 * byte_val b3.
Proof.
  unfold packet_rpm, sizeof_RpmPacket. change (Z.to_nat 4) with 4%nat.
  cbn [firstn]. rewrite !le_decode_cons. cbn [le_decode].
  change (2 ^ 8) with 256. change (2 ^ 16) with 65536.
  change (2 ^ 24) with 16777216. lia.
Qed.

(** X4. The decoded value is the little-endian reading of the first four
    bytes: byte 0 is the least significant one, the value is below 2^32,
    and whatever follows the four bytes does not matter. *)
Theorem packet_rpm_little_endian (payload tail : list byte) :
  (4 <= List.length payload)%nat ->
  packet_rpm payload =
    byte_val (nth 0 payload x00) + 2 ^ 8 * byte_val (nth 1 payload x00)
    + 2 ^ 16 * byte_val (nth 2 payload x00)
    + 2 ^ 24 * byte_val (nth 3 payload x00) /\
  0 <= packet_rpm payload < 2 ^ 32 /\
  packet_rpm (payload ++ tail) = packet_rpm payload.
Proof.
  intro Hlen.
  destruct payload as [|b0 [|b1 [|b2 [|b3 rest]]]];
    try (cbn [List.length] in Hlen; lia).
  split; [|split].
  - rewrite packet_rpm_four. reflexivity.
  - split; [apply packet_rpm_nonneg|].
    unfold packet_rpm, sizeof_RpmPacket. change (Z.to_nat 4) with 4%nat.
    cbn [firstn]. apply (le_decode_bound [b0; b1; b2; b3]).
  - reflexivity.
Qed.

Lemma byte_of_val (b : byte) :
  match Byte.of_N (Z.to_N (byte_val b)) with Some b' => b' | None => x00 end = b.
Proof.
  unfold byte_val. rewrite N2Z.id, Byte.of_to_N. reflexivity.
Qed.

(** Encoding the decoded value gives the first four bytes back. *)
Lemma encode_packet_rpm (b0 b1 b2 b3 : byte) (rest : list byte) :
  encode_rpm (packet_rpm (b0 :: b1 :: b2 :: b3 :: rest)) = [b0; b1; b2; b3].
Proof.
  rewrite packet_rpm_four.
  pose proof (byte_val_range b0) as H0. pose proof (byte_val_range b1) as H1.
  pose proof (byte_val_range b2) as H2. pose proof (byte_val_range b3) as H3.
  set (v := byte_val b0 + 2 ^ 8 * byte_val b1 + 2 ^ 16 * byte_val b2
            + 2 ^ 24 * byte_val b3).
  assert (E0 : Z.land (Z.shiftr v (8 * 0)) 255 = byte_val b0).
  { change 255 with (Z.ones 8). rewrite Z.land_ones, Z.shiftr_div_pow2 by lia.
    unfold v. change (2 ^ (8 * 0)) with 1. change (2 ^ 8) with 256.
    change (2 ^ 16) with 65536. change (2 ^ 24) with 16777216.
    Z.div_mod_to_equations. lia. }
  assert (E1 : Z.land (Z.shiftr v (8 * 1)) 255 = byte_val b1).
  { change 255 with (Z.ones 8). rewrite Z.land_ones, Z.shiftr_div_pow2 by lia.
    unfold v. change (2 ^ (8 * 1)) with 256. change (2 ^ 8) with 256.
    change (2 ^ 16) with 65536. change (2 ^ 24) with 16777216.
    Z.div_mod_to_equations. lia. }
  assert (E2 : Z.land (Z.shiftr v (8 * 2)) 255 = byte_val b2).
  { change 255 with (Z.ones 8). rewrite Z.land_ones, Z.shiftr_div_pow2 by lia.
    unfold v. change (2 ^ (8 * 2)) with 65536. change (2 ^ 8) with 256.
    change (2 ^ 16) with 65536. change (2 ^ 24) with 16777216.
    Z.div_mod_to_equations. lia. }
  assert (E3 : Z.land (Z.shiftr v (8 * 3)) 255 = byte_val b3).
  { change 255 with (Z.ones 8). rewrite Z.land_ones, Z.shiftr_div_pow2 by lia.
    unfold v. change (2 ^ (8 * 3)) with 16777216. change (2 ^ 8) with 256.
    change (2 ^ 16) with 65536. change (2 ^ 24) with 16777216.
    Z.div_mod_to_equations. lia. }
  unfold encode_rpm. cbn [map]. rewrite E0, E1, E2, E3, !byte_of_val.
  reflexivity.
Qed.

(** X5. Decoding loses nothing: two payloads of valid length that decode
    to the same value agree on their first four bytes. *)
Theorem packet_rpm_injective (p q : list byte) :
  (4 <= List.length p)%nat -> (4 <= List.length q)%nat ->
  packet_rpm p = packet_rpm q -> firstn 4 p = firstn 4 q.
Proof.
  intros Hp Hq Heq.
  destruct p as [|p0 [|p1 [|p2 [|p3 pr]]]]; try (cbn [List.length] in Hp; lia).
  destruct q as [|q0 [|q1 [|q2 [|q3 qr]]]]; try (cbn [List.length] in Hq; lia).
  cbn [firstn].
  rewrite <- (encode_packet_rpm p0 p1 p2 p3 pr).
  rewrite <- (encode_packet_rpm q0 q1 q2 q3 qr).
  now rewrite Heq.
Qed.

Lemma set_rpm_value_same (st : State) : set_rpm_value (rpm_value st) st = st.
Proof. destruct st. reflexivity. Qed.

Lemma on_packet_stored (p : list byte) (st : State) :
  on_packet p st = set_rpm_value (stored_after (rpm_value st) p) st.
Proof.
  unfold on_packet, esp_now_recv_cb, stored_after, sizeof_RpmPacket.
  rewrite Z.ltb_antisym.
  destruct (4 <=? Z.of_nat (List.length p)); cbn [negb andb];
    [|now rewrite set_rpm_value_same].
  destruct (packet_rpm p <=? RPM_MAX);
    [reflexivity | now rewrite set_rpm_value_same].
Qed.

(** X6. The measurement is a single slot, last write wins: a sequence of
    payloads leaves the state as it was except for [rpm_value], which is
    the value of the last accepted payload (the old value if none was
    accepted).  Delivering a payload twice is delivering it once, and an
    accepted payload hides whatever came before it. *)
Theorem packets_last_write_wins (payloads : list (list byte)) (st : State) :
  fold_left (fun s p => on_packet p s) payloads st
    = set_rpm_value (fold_left stored_after payloads (rpm_value st)) st /\
  (forall p, on_packet p (on_packet p st) = on_packet p st) /\
  (forall p q, (4 <= List.length q)%nat -> packet_rpm q <= RPM_MAX ->
     on_packet q (on_packet p st) = on_packet q st).
Proof.
  split; [|split].
  - revert st. induction payloads as [|p ps IH]; intro st.
    + cbn [fold_left]. now rewrite set_rpm_value_same.
    + cbn [fold_left]. rewrite IH, (on_packet_stored p st). reflexivity.
  - intro p. rewrite (on_packet_stored p (on_packet p st)).
    rewrite (on_packet_stored p st). cbn [rpm_value set_rpm_value].
    unfold stored_after.
    destruct ((4 <=? Z.of_nat (List.length p)) && (packet_rpm p <=? RPM_MAX));
      reflexivity.
  - intros p q Hq Hv.
    rewrite (on_packet_stored q (on_packet p st)), (on_packet_stored q st).
    rewrite (on_packet_stored p st). cbn [rpm_value set_rpm_value].
    assert (H4 : (4 <=? Z.of_nat (List.length q)) = true)
      by (apply Z.leb_le; lia).
    apply Z.leb_le in Hv.
    assert (Hs : forall cur, stored_after cur q = packet_rpm q)
      by (intro cur; unfold stored_after; now rewrite H4, Hv).
    rewrite !Hs. reflexivity.
Qed.

(* ------------------------------------------------------------------ *)
(** ** More on the scene builder                                       *)
(* ------------------------------------------------------------------ *)

(** Reduce projections, setters and the builder's steps, and nothing of
    the float arithmetic. *)
Ltac state_cbn :=
  cbn [current_scheme rpm_timer rpm_value rpm_meter needle_line
       needle_points rpm_label rpm_unit_label scr_bg scr_hub scr_touch_btn
       disp_hor_res disp_ver_res lv_timers
       set_current_scheme set_rpm_value set_needle_points set_rpm_label
       set_timer build_scene timer_teardown timer_arm lv_timer_create
       meter_width label_color label_text option_map] in *.

Lemma timer_id_le_max (tm : lv_timer_t) (ts : list lv_timer_t) :
  In tm ts -> (timer_id tm <= fold_right Nat.max 0 (map timer_id ts))%nat.
Proof.
  induction ts as [|a ts IH]; intro Hin; [destruct Hin|].
  cbn [map fold_right]. destruct Hin as [->|Hin]; [lia|].
  specialize (IH Hin). lia.
Qed.

(** Deleting a handle that no timer uses leaves the list alone. *)
Lemma lv_timer_del_fresh (ts : list lv_timer_t) :
  lv_timer_del (fresh_handle ts) ts = ts.
Proof.
  unfold lv_timer_del.
  assert (H : forall tm, In tm ts ->
            negb (Nat.eqb (timer_id tm) (fresh_handle ts)) = true).
  { intros tm Hin. apply timer_id_le_max in Hin. unfold fresh_handle.
    apply negb_true_iff, Nat.eqb_neq. lia. }
  revert H. generalize (fresh_handle ts) as h. intros h H.
  induction ts as [|a ts IH]; [reflexivity|].
  cbn [filter]. rewrite (H a (or_introl eq_refl)).
  f_equal. apply IH. intros tm Hin. apply H. now right.
Qed.

(** Creating a timer and deleting it again gives the list back. *)
Lemma timer_teardown_arm (st : State) :
  lv_timers (timer_teardown (timer_arm st)) = lv_timers st.
Proof.
  destruct st. state_cbn. unfold lv_timer_del. cbn [filter timer_id].
  rewrite Nat.eqb_refl. cbn [negb]. apply lv_timer_del_fresh.
Qed.

Lemma torn_timers_scene (seg : lv_point_t * lv_point_t) (st : State) :
  lv_timers (timer_teardown (set_needle_points seg (build_scene st)))
    = lv_timers (timer_teardown st).
Proof. destruct st as [c [h|] v m l pts lab ul b hb tb hr vr ts]; reflexivity. Qed.

Lemma torn_timers_set_current_scheme (c : Z) (st : State) :
  lv_timers (timer_teardown (set_current_scheme c st))
    = lv_timers (timer_teardown st).
Proof. destruct st as [c0 [h|] v m l pts lab ul b hb tb hr vr ts]; reflexivity. Qed.

Lemma disp_res_Lvgl_CreateRpmGauge (st : State) :
  disp_hor_res (Lvgl_CreateRpmGauge st) = disp_hor_res st /\
  disp_ver_res (Lvgl_CreateRpmGauge st) = disp_ver_res st.
Proof.
  rewrite Lvgl_CreateRpmGauge_unfold.
  destruct st as [c [h|] v m l pts lab ul b hb tb hr vr ts]; split; reflexivity.
Qed.

(** The builder reads only the cursor, the measurement, the resolution and
    the timers left after the teardown. *)
Lemma build_ext (st1 st2 : State) :
  current_scheme st1 = current_scheme st2 ->
  rpm_value st1 = rpm_value st2 ->
  disp_hor_res st1 = disp_hor_res st2 ->
  disp_ver_res st1 = disp_ver_res st2 ->
  lv_timers (timer_teardown st1) = lv_timers (timer_teardown st2) ->
  Lvgl_CreateRpmGauge st1 = Lvgl_CreateRpmGauge st2.
Proof.
  intros Hc Hv Hh Hr Hts. rewrite !Lvgl_CreateRpmGauge_unfold.
  destruct st1 as [c1 [h1|] v1 m1 l1 pts1 lab1 ul1 b1 hb1 tb1 hr1 vr1 ts1];
  destruct st2 as [c2 [h2|] v2 m2 l2 pts2 lab2 ul2 b2 hb2 tb2 hr2 vr2 ts2];
    state_cbn; subst; try rewrite Hts; reflexivity.
Qed.

(** X7. A rebuild is a full rebuild: the state after the builder depends
    only on the cursor, the stored measurement, the display resolution and
    the timers left once the old refresh timer is gone.  Nothing of the
    previous scene survives: not the old widgets, the old needle position,
    the old label text, nor which handle the old timer had. *)
Theorem Lvgl_CreateRpmGauge_full_rebuild (st1 st2 : State) :
  current_scheme st1 = current_scheme st2 ->
  rpm_value st1 = rpm_value st2 ->
  disp_hor_res st1 = disp_hor_res st2 ->
  disp_ver_res st1 = disp_ver_res st2 ->
  lv_timers (timer_teardown st1) = lv_timers (timer_teardown st2) ->
  Lvgl_CreateRpmGauge st1 = Lvgl_CreateRpmGauge st2 /\
  rpm_meter (Lvgl_CreateRpmGauge st1) = rpm_meter (build_scene st2) /\
  label_shown (Lvgl_CreateRpmGauge st1) = Some "0"%string /\
  needle_points (Lvgl_CreateRpmGauge st1) =
    needle_segment (rpm_value st2) (disp_hor_res st2) (disp_ver_res st2) 370.
Proof.
  intros Hc Hv Hh Hr Hts.
  rewrite (build_ext st1 st2 Hc Hv Hh Hr Hts).
  split; [reflexivity|]. rewrite Lvgl_CreateRpmGauge_unfold.
  destruct st2 as [c2 [h2|] v2 m2 l2 pts2 lab2 ul2 b2 hb2 tb2 hr2 vr2 ts2];
    repeat split.
Qed.

Lemma lv_timer_del_not_live (h : nat) (ts : list lv_timer_t) :
  timer_live h ts = false -> lv_timer_del h ts = ts.
Proof.
  unfold timer_live, lv_timer_del.
  induction ts as [|a ts IH]; intro H; [reflexivity|].
  cbn [existsb] in H. apply orb_false_iff in H as [Ha Hts].
  cbn [filter]. rewrite Ha. cbn [negb]. f_equal. now apply IH.
Qed.

Lemma lv_timer_del_head (h : nat) (period : Z) (ts : list lv_timer_t) :
  timer_live h ts = false -> lv_timer_del h (mkTimer h period :: ts) = ts.
Proof.
  intro H. unfold lv_timer_del. cbn [filter timer_id].
  rewrite Nat.eqb_refl. cbn [negb]. now apply lv_timer_del_not_live.
Qed.

Lemma fresh_handle_not_live (ts : list lv_timer_t) :
  timer_live (fresh_handle ts) ts = false.
Proof.
  unfold timer_live. apply not_true_is_false. intro H.
  apply existsb_exists in H as (tm & Hin & Heq).
  apply Nat.eqb_eq in Heq. apply timer_id_le_max in Hin.
  unfold fresh_handle in Heq. lia.
Qed.

(** X8. Building twice gives what building once gives, whatever pointers
    [lv_timer_create] returns: if the first build's timer got a handle
    that no remaining timer uses, the second build deletes exactly that
    timer and ends in the state a single build ends in when it is given
    the second handle.  The sketch's builder is the instance where the
    handle is the one the timer list hands out, and that handle is unused. *)
Theorem rebuild_twice_any_handle (h1 h2 : nat) (st : State) :
  timer_live h1 (lv_timers (timer_teardown st)) = false ->
  Lvgl_CreateRpmGauge_at h2 (Lvgl_CreateRpmGauge_at h1 st)
    = Lvgl_CreateRpmGauge_at h2 st /\
  Lvgl_CreateRpmGauge st
    = Lvgl_CreateRpmGauge_at
        (fresh_handle (lv_timers (timer_teardown st))) st /\
  timer_live (fresh_handle (lv_timers (timer_teardown st)))
             (lv_timers (timer_teardown st)) = false.
Proof.
  intro Hfree. split; [|split; [|apply fresh_handle_not_live]].
  - unfold Lvgl_CreateRpmGauge_at, timer_arm_at, update_needle.
    destruct st as [c [h|] v m l pts lab ul b hb tb hr vr ts];
      state_cbn; rewrite (lv_timer_del_head h1 100 _ Hfree); reflexivity.
  - destruct st as [c [h|] v m l pts lab ul b hb tb hr vr ts]; reflexivity.
Qed.

Lemma set_current_scheme_same (st : State) :
  set_current_scheme (current_scheme st) st = st.
Proof. destruct st. reflexivity. Qed.

Lemma rebuild_absorbs (c : Z) (st : State) :
  Lvgl_CreateRpmGauge (set_current_scheme c (Lvgl_CreateRpmGauge st))
    = Lvgl_CreateRpmGauge (set_current_scheme c st).
Proof.
  apply build_ext.
  - reflexivity.
  - change (rpm_value (Lvgl_CreateRpmGauge st) = rpm_value st).
    apply rpm_value_Lvgl_CreateRpmGauge.
  - change (disp_hor_res (Lvgl_CreateRpmGauge st) = disp_hor_res st).
    apply disp_res_Lvgl_CreateRpmGauge.
  - change (disp_ver_res (Lvgl_CreateRpmGauge st) = disp_ver_res st).
    apply disp_res_Lvgl_CreateRpmGauge.
  - rewrite !torn_timers_set_current_scheme.
    rewrite Lvgl_CreateRpmGauge_unfold, timer_teardown_arm.
    destruct st as [c0 [h|] v m l pts lab ul b hb tb hr vr ts]; reflexivity.
Qed.

Lemma taps_one_rebuild (n : nat) (st : State) :
  Nat.iter (S n) (touch_color_cycle_cb LV_EVENT_CLICKED) st =
    Lvgl_CreateRpmGauge
      (set_current_scheme (Nat.iter (S n) next_scheme (current_scheme st)) st).
Proof.
  induction n as [|n IH]; [reflexivity|].
  change (Nat.iter (S (S n)) (touch_color_cycle_cb LV_EVENT_CLICKED) st)
    with (touch_color_cycle_cb LV_EVENT_CLICKED
            (Nat.iter (S n) (touch_color_cycle_cb LV_EVENT_CLICKED) st)).
  change (Nat.iter (S (S n)) next_scheme (current_scheme st))
    with (next_scheme (Nat.iter (S n) next_scheme (current_scheme st))).
  unfold touch_color_cycle_cb at 1. cbn [is_clicked negb].
  rewrite current_scheme_taps. rewrite IH.
  rewrite rebuild_absorbs. reflexivity.
Qed.

(** X9. Any number of taps in a row amounts to a single rebuild at the
    cursor they end on; from a valid cursor, a whole number of cycles
    through the table amounts to one plain rebuild. *)
Theorem taps_collapse (n k : nat) (st : State) :
  let tap := touch_color_cycle_cb LV_EVENT_CLICKED in
  Nat.iter (S n) tap st =
    Lvgl_CreateRpmGauge
      (set_current_scheme (Nat.iter (S n) next_scheme (current_scheme st)) st) /\
  (0 <= current_scheme st < scheme_count ->
   Nat.iter (Z.to_nat scheme_count * S k) tap st = Lvgl_CreateRpmGauge st).
Proof.
  intro tap. split; [apply taps_one_rebuild|].
  intro Hc. unfold tap.
  assert (HN : Z.to_nat scheme_count = 3%nat) by reflexivity.
  rewrite HN. replace (3 * S k)%nat with (S (2 + 3 * k)) by lia.
  rewrite taps_one_rebuild, iter_next_scheme by exact Hc.
  replace (current_scheme st + Z.of_nat (S (2 + 3 * k)))
    with (current_scheme st + Z.of_nat (S k) * scheme_count)
    by (unfold scheme_count; cbn [List.length color_schemes]; lia).
  rewrite Z.mod_add by (pose proof scheme_count_pos; lia).
  rewrite Z.mod_small by exact Hc.
  now rewrite set_current_scheme_same.
Qed.

(* ------------------------------------------------------------------ *)
(** ** What holds while the sketch runs                                *)
(* ------------------------------------------------------------------ *)

Lemma next_scheme_valid (c : Z) :
  0 <= c < scheme_count -> 0 <= next_scheme c < scheme_count.
Proof.
  intro Hc. rewrite next_scheme_mod by exact Hc.
  apply Z.mod_pos_bound, scheme_count_pos.
Qed.

Lemma scene_built_Lvgl_CreateRpmGauge (st : State) :
  0 <= current_scheme st < scheme_count ->
  scene_built (Lvgl_CreateRpmGauge st).
Proof.
  intro Hc. rewrite Lvgl_CreateRpmGauge_unfold. unfold scene_built.
  destruct st as [c [h|] v m l pts lab ul b hb tb hr vr ts];
    state_cbn; repeat split; lia.
Qed.

Lemma scene_built_set_rpm_value (v : Z) (st : State) :
  scene_built st -> scene_built (set_rpm_value v st).
Proof. destruct st. unfold scene_built. state_cbn. tauto. Qed.

Lemma scene_built_rpm_timer_cb (st : State) :
  scene_built st -> scene_built (rpm_timer_cb st).
Proof.
  unfold scene_built, rpm_timer_cb, update_needle.
  destruct st as [c h v [m|] [l|] pts [lab|] ul b hb tb hr vr ts];
    state_cbn; tauto.
Qed.

Lemma step_scene_built (ev : event) (st : State) :
  scene_built st -> scene_built (step ev st).
Proof.
  intro H. destruct ev as [payload | h | code]; cbn [step].
  - rewrite on_packet_stored. now apply scene_built_set_rpm_value.
  - destruct (timer_live h (lv_timers st)); [|exact H].
    now apply scene_built_rpm_timer_cb.
  - destruct (scr_touch_btn st); [|exact H].
    unfold touch_color_cycle_cb. destruct (negb (is_clicked code)); [exact H|].
    apply scene_built_Lvgl_CreateRpmGauge.
    change (0 <= next_scheme (current_scheme st) < scheme_count).
    apply next_scheme_valid. apply H.
Qed.

Lemma run_scene_built (evs : list event) (st : State) :
  scene_built st -> scene_built (run evs st).
Proof.
  revert st. induction evs as [|ev evs IH]; intros st H; [exact H|].
  cbn [run fold_left]. apply IH. now apply step_scene_built.
Qed.

Lemma disp_res_step (ev : event) (st : State) :
  disp_hor_res (step ev st) = disp_hor_res st /\
  disp_ver_res (step ev st) = disp_ver_res st.
Proof.
  destruct ev as [payload | h | code]; cbn [step].
  - rewrite on_packet_stored. split; reflexivity.
  - destruct (timer_live h (lv_timers st)); [|split; reflexivity].
    unfold rpm_timer_cb, update_needle.
    destruct st as [c t v [m|] [l|] pts [lab|] ul b hb tb hr vr ts];
      split; reflexivity.
  - destruct (scr_touch_btn st); [|split; reflexivity].
    unfold touch_color_cycle_cb.
    destruct (negb (is_clicked code)); [split; reflexivity|].
    apply (disp_res_Lvgl_CreateRpmGauge
             (set_current_scheme (next_scheme (current_scheme st)) st)).
Qed.

Lemma disp_res_run (evs : list event) (st : State) :
  disp_hor_res (run evs st) = disp_hor_res st /\
  disp_ver_res (run evs st) = disp_ver_res st.
Proof.
  revert st. induction evs as [|ev evs IH]; intro st; [split; reflexivity|].
  change (run (ev :: evs) st) with (run evs (step ev st)).
  destruct (IH (step ev st)) as [H1 H2].
  destruct (disp_res_step ev st) as [H3 H4].
  split; [now rewrite H1 | now rewrite H2].
Qed.

Lemma setup_scene_built (hor ver : Z) : scene_built (setup hor ver).
Proof.
  apply scene_built_Lvgl_CreateRpmGauge. cbn [current_scheme boot].
  pose proof scheme_count_pos. lia.
Qed.

(** X10. Once [setup] has run, whatever packets, ticks and touches follow:
    the cursor is a valid index of [color_schemes], every handle the
    sketch dereferences is set (meter, 370 wide; needle line; both labels;
    the touch button), and the widgets on the screen carry the colours of
    the scheme the cursor selects. *)
Theorem scene_always_built (hor ver : Z) (evs : list event) :
  let st := run evs (setup hor ver) in
  scene_built st /\
  0 <= current_scheme st < scheme_count /\
  (exists meter, rpm_meter st = Some meter /\ meter_width meter = 370) /\
  needle_line st <> None /\
  rpm_label st <> None /\
  option_map label_text (rpm_unit_label st) = Some "RAUH Welt BEGRIFF"%string /\
  scr_bg st = Some (lv_color_hex (bg (scheme_at (current_scheme st)))) /\
  disp_hor_res st = hor /\ disp_ver_res st = ver.
Proof.
  intro st.
  assert (H : scene_built st)
    by (apply run_scene_built, setup_scene_built).
  destruct (disp_res_run evs (setup hor ver)) as [Hh Hv].
  destruct (disp_res_Lvgl_CreateRpmGauge (boot hor ver)) as [Hh0 Hv0].
  split; [exact H|].
  destruct H as (Hc & Hm & Hl & Hlab & Hul & Hbg & _ & _).
  split; [exact Hc|]. split; [|split; [|split; [|split; [|split; [|split]]]]].
  - rewrite Hm. eexists. split; reflexivity.
  - rewrite Hl. discriminate.
  - intro Hn. rewrite Hn in Hlab. discriminate Hlab.
  - rewrite Hul. reflexivity.
  - rewrite Hbg. reflexivity.
  - fold st in Hh. rewrite Hh. exact Hh0.
  - fold st in Hv. rewrite Hv. exact Hv0.
Qed.

Lemma label_text_check_all (v : Z) :
  0 <= v <= 8000 ->
  lv_snprintf_ld 16 v = NilEmpty.string_of_int (Z.to_int v).
Proof.
  intro Hv. apply String.eqb_eq.
  apply (forall_upto label_text_check (Z.to_nat 8000)); [|lia].
  vm_compute. reflexivity.
Qed.

Lemma rpm_timer_cb_built (st : State) :
  scene_built st ->
  label_shown (rpm_timer_cb st) = Some (lv_snprintf_ld 16 (rpm_value st)) /\
  needle_points (rpm_timer_cb st) =
    needle_segment (rpm_value st) (disp_hor_res st) (disp_ver_res st) 370.
Proof.
  intros (_ & Hm & Hl & Hlab & _).
  unfold rpm_timer_cb, update_needle, label_shown.
  destruct st as [c t v [m|] [l|] pts [lab|] ul b hb tb hr vr ts];
    state_cbn; try discriminate.
  injection Hm as ->. split; reflexivity.
Qed.

(** X11. In every state reached after [setup], a refresh tick puts the
    whole decimal text of the stored measurement on the label (the 16-byte
    buffer never cuts it) and the needle on the segment computed from that
    measurement; and the handle in [rpm_timer] is that of a live timer, so
    the LVGL loop can fire it. *)
Theorem tick_shows_measurement (hor ver : Z) (evs : list event) :
  let st := run evs (setup hor ver) in
  label_shown (rpm_timer_cb st)
    = Some (NilEmpty.string_of_int (Z.to_int (rpm_value st))) /\
  needle_points (rpm_timer_cb st)
    = needle_segment (rpm_value st) hor ver 370 /\
  exists h, rpm_timer st = Some h /\
            timer_live h (lv_timers st) = true /\
            step (TimerFire h) st = rpm_timer_cb st.
Proof.
  intro st.
  assert (Hb : scene_built st) by (apply run_scene_built, setup_scene_built).
  assert (Hr : 0 <= rpm_value st <= RPM_MAX).
  { apply run_rpm_range. unfold setup.
    rewrite rpm_value_Lvgl_CreateRpmGauge. cbn [rpm_value boot].
    unfold RPM_MAX. lia. }
  assert (Ha : timer_armed st).
  { apply run_timer_armed, Lvgl_CreateRpmGauge_armed. reflexivity. }
  destruct (rpm_timer_cb_built st Hb) as [Hl Hp].
  destruct (disp_res_run evs (setup hor ver)) as [Hh Hv].
  destruct (disp_res_Lvgl_CreateRpmGauge (boot hor ver)) as [Hh0 Hv0].
  split; [|split].
  - rewrite Hl. now rewrite label_text_check_all.
  - rewrite Hp. fold st in Hh, Hv. unfold setup in Hh, Hv.
    rewrite Hh, Hv, Hh0, Hv0. reflexivity.
  - destruct Ha as [h [Hh1 Hts]]. exists h.
    assert (Hlive : timer_live h (lv_timers st) = true).
    { rewrite Hts. unfold timer_live. cbn [existsb timer_id].
      now rewrite Nat.eqb_refl. }
    split; [exact Hh1|]. split; [exact Hlive|].
    cbn [step]. now rewrite Hlive.
Qed.

(** X12. A refresh tick writes only the needle endpoints and the label
    text, and a second tick with no packet in between changes nothing. *)
Theorem rpm_timer_cb_idempotent (st : State) :
  rpm_timer_cb (rpm_timer_cb st) = rpm_timer_cb st /\
  rpm_timer_cb st =
    set_rpm_label (rpm_label (rpm_timer_cb st))
      (set_needle_points (needle_points (rpm_timer_cb st)) st) /\
  option_map label_color (rpm_label (rpm_timer_cb st))
    = option_map label_color (rpm_label st).
Proof.
  unfold rpm_timer_cb, update_needle.
  destruct st as [c t v [m|] [l|] pts [lab|] ul b hb tb hr vr ts];
    state_cbn; repeat split.
Qed.

(** X13. A tap and a packet may come in either order: once the next
    refresh tick has run, the state is the same. *)
Theorem tap_packet_commute (payload : list byte) (st : State) :
  let tap := touch_color_cycle_cb LV_EVENT_CLICKED in
  rpm_timer_cb (tap (on_packet payload st))
    = rpm_timer_cb (on_packet payload (tap st)).
Proof.
  intro tap. unfold tap.
  rewrite (on_packet_stored payload st).
  rewrite (on_packet_stored payload (touch_color_cycle_cb LV_EVENT_CLICKED st)).
  rewrite rpm_value_touch.
  generalize (stored_after (rpm_value st) payload) as v. intro v.
  unfold touch_color_cycle_cb. cbn [is_clicked negb].
  rewrite !Lvgl_CreateRpmGauge_unfold.
  unfold rpm_timer_cb, update_needle.
  destruct st as [c [h|] v0 m l pts lab ul b hb tb hr vr ts];
    state_cbn; reflexivity.
Qed.

Lemma step_before_setup (ev : event) (v hor ver : Z) :
  exists v', step ev (set_rpm_value v (boot hor ver))
             = set_rpm_value v' (boot hor ver).
Proof.
  destruct ev as [payload | h | code]; cbn [step].
  - rewrite on_packet_stored. eexists. reflexivity.
  - exists v. reflexivity.
  - exists v. reflexivity.
Qed.

Lemma run_before_setup (evs : list event) (v hor ver : Z) :
  exists v', run evs (set_rpm_value v (boot hor ver))
             = set_rpm_value v' (boot hor ver).
Proof.
  revert v. induction evs as [|ev evs IH]; intro v.
  - exists v. reflexivity.
  - cbn [run fold_left]. destruct (step_before_setup ev v hor ver) as [v1 ->].
    apply IH.
Qed.

(** X14. Before the first build only the measurement can change: timer
    fires and touches find no timer and no button and do nothing, packets
    are received as usual. *)
Theorem before_setup_only_measurement (hor ver : Z) (evs : list event) :
  run evs (boot hor ver)
    = set_rpm_value (rpm_value (run evs (boot hor ver))) (boot hor ver) /\
  rpm_value (run evs (boot hor ver))
    = fold_left stored_after
        (flat_map (fun ev => match ev with Packet p => [p] | _ => [] end) evs)
        0.
Proof.
  split.
  - destruct (run_before_setup evs 0 hor ver) as [v' H].
    change (set_rpm_value 0 (boot hor ver)) with (boot hor ver) in H.
    rewrite H. reflexivity.
  - assert (G : forall v,
              rpm_value (run evs (set_rpm_value v (boot hor ver)))
              = fold_left stored_after
                  (flat_map (fun ev => match ev with
                                       | Packet p => [p] | _ => [] end) evs)
                  v).
    { induction evs as [|ev evs IH]; intro v; [reflexivity|].
      cbn [run fold_left flat_map].
      destruct ev as [payload | h | code]; cbn [step app].
      - rewrite on_packet_stored. cbn [fold_left]. apply IH.
      - apply IH.
      - apply IH. }
    exact (G 0).
Qed.

Lemma rpm_value_step_no_packet (ev : event) (st : State) :
  is_packet ev = false -> rpm_value (step ev st) = rpm_value st.
Proof.
  destruct ev as [payload | h | code]; cbn [is_packet step]; intro H;
    [discriminate| |].
  - destruct (timer_live h (lv_timers st)); [|reflexivity].
    apply rpm_value_rpm_timer_cb.
  - destruct (scr_touch_btn st); [|reflexivity]. apply rpm_value_touch.
Qed.

Lemma rpm_value_run_no_packet (evs : list event) (st : State) :
  rpm_value (run (filter (fun ev => negb (is_packet ev)) evs) st)
    = rpm_value st.
Proof.
  revert st. induction evs as [|ev evs IH]; intro st; [reflexivity|].
  cbn [filter]. destruct (is_packet ev) eqn:E; cbn [negb]; [apply IH|].
  change (run (ev :: filter (fun ev => negb (is_packet ev)) evs) st)
    with (run (filter (fun ev => negb (is_packet ev)) evs) (step ev st)).
  rewrite IH. now apply rpm_value_step_no_packet.
Qed.

Lemma system_run_registered (evs : list event) (st : State) :
  system_run evs (mkSystem st true) = mkSystem (run evs st) true.
Proof.
  revert st. induction evs as [|ev evs IH]; intro st; [reflexivity|].
  change (system_run (ev :: evs) (mkSystem st true))
    with (system_run evs (system_step ev (mkSystem st true))).
  change (run (ev :: evs) st) with (run evs (step ev st)).
  rewrite <- IH. f_equal. destruct ev; reflexivity.
Qed.

Lemma system_run_unregistered (evs : list event) (st : State) :
  system_run evs (mkSystem st false)
    = mkSystem (run (filter (fun ev => negb (is_packet ev)) evs) st) false.
Proof.
  revert st. induction evs as [|ev evs IH]; intro st; [reflexivity|].
  change (system_run (ev :: evs) (mkSystem st false))
    with (system_run evs (system_step ev (mkSystem st false))).
  destruct ev as [payload | h | code]; cbn [filter is_packet negb].
  - apply IH.
  - change (run (TimerFire h :: ?l) st) with (run l (step (TimerFire h) st)).
    rewrite <- IH. reflexivity.
  - change (run (Touch code :: ?l) st) with (run l (step (Touch code) st)).
    rewrite <- IH. reflexivity.
Qed.

(** X15. The radio bring-up decides whether packets ever arrive.  When
    [esp_now_init] succeeds the callback is registered and the sketch runs
    as described so far.  When it fails nothing is registered: every frame
    is lost, the measurement stays 0 for good and each refresh tick puts
    "0" on the label, while ticks and taps go on working. *)
Theorem radio_init_outcomes (hor ver : Z) (evs : list event) :
  system_run evs (setup_system true hor ver)
    = mkSystem (run evs (setup hor ver)) true /\
  system_run evs (setup_system false hor ver)
    = mkSystem (run (filter (fun ev => negb (is_packet ev)) evs)
                    (setup hor ver)) false /\
  rpm_value (sys_state (system_run evs (setup_system false hor ver))) = 0 /\
  label_shown
    (rpm_timer_cb (sys_state (system_run evs (setup_system false hor ver))))
    = Some "0"%string.
Proof.
  assert (Hok : system_run evs (setup_system true hor ver)
                = mkSystem (run evs (setup hor ver)) true)
    by apply system_run_registered.
  assert (Hfail : system_run evs (setup_system false hor ver)
                  = mkSystem (run (filter (fun ev => negb (is_packet ev)) evs)
                                  (setup hor ver)) false)
    by apply system_run_unregistered.
  assert (Hv : rpm_value (run (filter (fun ev => negb (is_packet ev)) evs)
                              (setup hor ver)) = 0).
  { rewrite rpm_value_run_no_packet. unfold setup.
    now rewrite rpm_value_Lvgl_CreateRpmGauge. }
  split; [exact Hok|]. split; [exact Hfail|].
  rewrite Hfail. cbn [sys_state]. split; [exact Hv|].
  destruct (rpm_timer_cb_built
              (run (filter (fun ev => negb (is_packet ev)) evs) (setup hor ver)))
    as [Hl _]; [apply run_scene_built, setup_scene_built|].
  rewrite Hl, Hv. reflexivity.
Qed.

(** X16. From packet to display: in a state reached after [setup], once a
    payload of valid length carrying a value up to 8000 has arrived, the
    next refresh tick shows exactly that value and puts the needle at its
    segment; after a payload that is too short or out of range the tick
    shows what it would have shown without it. *)
Theorem packet_then_tick (hor ver : Z) (evs : list event) (payload : list byte) :
  let st := run evs (setup hor ver) in
  ((4 <= List.length payload)%nat -> packet_rpm payload <= RPM_MAX ->
     label_shown (rpm_timer_cb (on_packet payload st))
       = Some (NilEmpty.string_of_int (Z.to_int (packet_rpm payload))) /\
     needle_points (rpm_timer_cb (on_packet payload st))
       = needle_segment (packet_rpm payload) hor ver 370) /\
  ((List.length payload < 4)%nat \/ RPM_MAX < packet_rpm payload ->
     rpm_timer_cb (on_packet payload st) = rpm_timer_cb st).
Proof.
  intro st.
  assert (Hb : scene_built st) by (apply run_scene_built, setup_scene_built).
  destruct (disp_res_run evs (setup hor ver)) as [Hh Hv].
  destruct (disp_res_Lvgl_CreateRpmGauge (boot hor ver)) as [Hh0 Hv0].
  fold st in Hh, Hv. unfold setup in Hh, Hv. rewrite Hh0 in Hh. rewrite Hv0 in Hv.
  cbn [disp_hor_res disp_ver_res boot] in Hh, Hv.
  split.
  - intros Hlen Hval. rewrite on_packet_stored.
    assert (Hs : stored_after (rpm_value st) payload = packet_rpm payload).
    { unfold stored_after.
      assert (H4 : (4 <=? Z.of_nat (List.length payload)) = true)
        by (apply Z.leb_le; lia).
      apply Z.leb_le in Hval. now rewrite H4, Hval. }
    rewrite Hs.
    destruct (rpm_timer_cb_built (set_rpm_value (packet_rpm payload) st))
      as [Hl Hp]; [now apply scene_built_set_rpm_value|].
    cbn [rpm_value set_rpm_value disp_hor_res disp_ver_res] in Hl, Hp.
    rewrite Hl, Hp, Hh, Hv. split; [|reflexivity].
    rewrite label_text_check_all; [reflexivity|].
    pose proof (packet_rpm_nonneg payload). unfold RPM_MAX in Hval. lia.
  - intro Hbad. rewrite on_packet_stored.
    assert (Hs : stored_after (rpm_value st) payload = rpm_value st).
    { unfold stored_after. destruct Hbad as [Hshort | Hbig].
      - assert (H4 : (4 <=? Z.of_nat (List.length payload)) = false)
          by (apply Z.leb_gt; lia).
        now rewrite H4.
      - assert (H8 : (packet_rpm payload <=? RPM_MAX) = false)
          by (apply Z.leb_gt; lia).
        rewrite H8. now rewrite andb_false_r. }
    now rewrite Hs, set_rpm_value_same.
Qed.

(** The needle and the label show the value [v]. *)
Lemma shown_value_step (hor ver : Z) (ev : event) (st : State) :
  scene_built st -> 0 <= rpm_value st <= RPM_MAX ->
  disp_hor_res st = hor -> disp_ver_res st = ver ->
  (exists v, 0 <= v <= RPM_MAX /\
             needle_points st = needle_segment v hor ver 370) ->
  (exists v, 0 <= v <= RPM_MAX /\
             label_shown st = Some (NilEmpty.string_of_int (Z.to_int v))) ->
  (exists v, 0 <= v <= RPM_MAX /\
             needle_points (step ev st) = needle_segment v hor ver 370) /\
  (exists v, 0 <= v <= RPM_MAX /\
             label_shown (step ev st)
               = Some (NilEmpty.string_of_int (Z.to_int v))).
Proof.
  intros Hb Hr Hh Hv Hn Hl.
  destruct ev as [payload | h | code]; cbn [step].
  - rewrite on_packet_stored. split; [exact Hn | exact Hl].
  - destruct (timer_live h (lv_timers st)); [|split; [exact Hn | exact Hl]].
    destruct (rpm_timer_cb_built st Hb) as [Hl' Hp']. split.
    + exists (rpm_value st). split; [exact Hr|]. now rewrite Hp', Hh, Hv.
    + exists (rpm_value st). split; [exact Hr|].
      rewrite Hl'. rewrite label_text_check_all; [reflexivity|].
      unfold RPM_MAX in Hr. exact Hr.
  - destruct (scr_touch_btn st); [|split; [exact Hn | exact Hl]].
    unfold touch_color_cycle_cb.
    destruct (negb (is_clicked code)); [split; [exact Hn | exact Hl]|].
    rewrite Lvgl_CreateRpmGauge_unfold. split.
    + exists (rpm_value st). split; [exact Hr|].
      rewrite <- Hh, <- Hv.
      destruct st as [c [t|] v m l pts lab ul b hb tb hr vr ts]; reflexivity.
    + exists 0. split; [unfold RPM_MAX; lia|].
      destruct st as [c [t|] v m l pts lab ul b hb tb hr vr ts]; reflexivity.
Qed.

(** X17. What is on the display is never out of range: in every state
    reached after [setup] the needle sits on the segment of some value of
    [0, 8000] and the label reads the decimal text of some value of
    [0, 8000] (not always the same one: the label is "0" right after a
    rebuild, and both lag behind the stored measurement until the next
    tick). *)
Theorem display_in_range (hor ver : Z) (evs : list event) :
  let st := run evs (setup hor ver) in
  (exists v, 0 <= v <= 8000 /\
             needle_points st = needle_segment v hor ver 370) /\
  (exists v, 0 <= v <= 8000 /\
             label_shown st = Some (NilEmpty.string_of_int (Z.to_int v))).
Proof.
  cbv zeta.
  assert (G : forall st,
            scene_built st -> 0 <= rpm_value st <= RPM_MAX ->
            disp_hor_res st = hor -> disp_ver_res st = ver ->
            (exists v, 0 <= v <= RPM_MAX /\
                       needle_points st = needle_segment v hor ver 370) ->
            (exists v, 0 <= v <= RPM_MAX /\
                       label_shown st
                         = Some (NilEmpty.string_of_int (Z.to_int v))) ->
            (exists v, 0 <= v <= RPM_MAX /\
                       needle_points (run evs st)
                         = needle_segment v hor ver 370) /\
            (exists v, 0 <= v <= RPM_MAX /\
                       label_shown (run evs st)
                         = Some (NilEmpty.string_of_int (Z.to_int v)))).
  { induction evs as [|ev evs IH]; intros st Hb Hr Hh Hv Hn Hl;
      [split; [exact Hn | exact Hl]|].
    change (run (ev :: evs) st) with (run evs (step ev st)).
    destruct (shown_value_step hor ver ev st Hb Hr Hh Hv Hn Hl) as [Hn' Hl'].
    destruct (disp_res_step ev st) as [Hh' Hv'].
    apply IH; [now apply step_scene_built | now apply step_rpm_range
              | now rewrite Hh' | now rewrite Hv' | exact Hn' | exact Hl']. }
  destruct (disp_res_Lvgl_CreateRpmGauge (boot hor ver)) as [Hh0 Hv0].
  apply G.
  - apply setup_scene_built.
  - unfold setup. rewrite rpm_value_Lvgl_CreateRpmGauge.
    cbn [rpm_value boot]. unfold RPM_MAX. lia.
  - exact Hh0.
  - exact Hv0.
  - exists 0. split; [unfold RPM_MAX; lia | reflexivity].
  - exists 0. split; [unfold RPM_MAX; lia | reflexivity].
Qed.

End Sketch.

(* ------------------------------------------------------------------ *)
(** ** The theorems at concrete inputs                                 *)
(* ------------------------------------------------------------------ *)

(** [update_needle_saturates] at -5 and at 9000, on the scene [setup]
    builds for a 360 x 360 display. *)
Lemma update_needle_saturates_witness :
  let st := setup const_one const_one 360 360 in
  (-5 < 0 /\
   update_needle const_one const_one (-5) st
     = update_needle const_one const_one 0 st) /\
  (8000 < 9000 /\
   update_needle const_one const_one 9000 st
     = update_needle const_one const_one 8000 st).
Proof.
  intro st.
  assert (Hlo : -5 < 0) by lia.
  assert (Hhi : 8000 < 9000) by lia.
  pose proof (update_needle_saturates const_one const_one (-5) st)
    as (_ & Hbelow & _).
  pose proof (update_needle_saturates const_one const_one 9000 st)
    as (_ & _ & Habove).
  split; split; [exact Hlo | exact (proj1 (Hbelow Hlo))
                | exact Hhi | exact (proj1 (Habove Hhi))].
Defined.

(** [short_packet_discarded] at a three-byte payload. *)
Lemma short_packet_discarded_witness :
  (List.length [x40; x1f; x00] < 4)%nat /\
  on_packet [x40; x1f; x00] (boot 360 360) = boot 360 360.
Proof.
  assert (Hlen : (List.length [x40; x1f; x00] < 4)%nat) by (simpl; lia).
  split; [exact Hlen|].
  exact (proj1 (short_packet_discarded [x40; x1f; x00] (boot 360 360) Hlen)).
Defined.

(** [recv_accepts_iff_in_range] at the five-byte payload 40 1f 00 00 ff,
    whose first four bytes encode 8000. *)
Lemma recv_accepts_iff_in_range_witness :
  (4 <= List.length [x40; x1f; x00; x00; xff])%nat /\
  packet_rpm [x40; x1f; x00; x00; xff] <= RPM_MAX /\
  rpm_value (on_packet [x40; x1f; x00; x00; xff] (boot 360 360))
    = packet_rpm [x40; x1f; x00; x00; xff].
Proof.
  assert (Hlen : (4 <= List.length [x40; x1f; x00; x00; xff])%nat)
    by (simpl; lia).
  assert (Hv : packet_rpm [x40; x1f; x00; x00; xff] <= RPM_MAX)
    by (vm_compute; discriminate).
  split; [exact Hlen|]. split; [exact Hv|].
  pose proof (recv_accepts_iff_in_range
                [x40; x1f; x00; x00; xff] (boot 360 360) Hlen)
    as (Hacc & _).
  exact (proj2 (Hacc Hv)).
Defined.

(** [scheme_cycle] from the cursor at reset, over two full cycles. *)
Lemma scheme_cycle_witness :
  0 <= current_scheme (boot 360 360) < scheme_count /\
  current_scheme
    (Nat.iter (Z.to_nat scheme_count * 2)
       (touch_color_cycle_cb const_one const_one LV_EVENT_CLICKED)
       (boot 360 360))
    = current_scheme (boot 360 360).
Proof.
  assert (H : 0 <= current_scheme (boot 360 360) < scheme_count)
    by (simpl; unfold scheme_count; simpl; lia).
  split; [exact H|].
  pose proof (scheme_cycle const_one const_one (boot 360 360) 2 H)
    as (_ & _ & Hcycle & _).
  exact Hcycle.
Defined.

(** [needle_radii_order] at the width the builder sets, on the scene of
    [setup]. *)
Lemma needle_radii_order_witness :
  let st := setup const_one const_one 360 360 in
  16 <= 370 <= 4096 /\
  needle_inner_r 370 <> F32.mul (needle_outer_r 370) (F32.lit 20 100) /\
  needle_points (update_needle const_one const_one 4000 st)
    = (mkPoint 215 215, mkPoint 313 313).
Proof.
  intro st.
  pose proof (needle_radii_order const_one const_one 370)
    as (_ & _ & _ & Hne & _ & _ & _ & _ & Hpts).
  assert (Hw : 16 <= 370 <= 4096) by lia.
  split; [exact Hw|]. split; [exact (Hne Hw)|].
  destruct (rpm_meter st) as [meter|] eqn:Hm; [|discriminate Hm].
  destruct (needle_line st) as [line|] eqn:Hl; [|discriminate Hl].
  assert (Hmw : meter_width meter = 370).
  { vm_compute in Hm. injection Hm as <-. reflexivity. }
  rewrite (Hpts 4000 st meter line Hm Hl Hmw).
  vm_compute. reflexivity.
Defined.

(* ------------------------------------------------------------------ *)
(** ** Where the code departs from a stated property                   *)
(* ------------------------------------------------------------------ *)

(** C9, as stated, fails.  After a packet carrying 3000 and a refresh tick the label reads
    "3000"; the tap that follows keeps the stored 3000 but leaves the
    label at "0", not at the last value. *)
Lemma tap_resets_label :
  let st := run const_one const_one
              [Packet (encode_rpm 3000); TimerFire 1%nat]
              (setup const_one const_one 360 360) in
  let st' := step const_one const_one (Touch LV_EVENT_CLICKED) st in
  rpm_value st = 3000 /\
  label_shown st = Some "3000"%string /\
  rpm_value st' = 3000 /\
  label_shown st' = Some "0"%string /\
  label_shown st' <> label_shown st /\
  label_shown st' <> Some (lv_snprintf_ld 16 (rpm_value st')).
Proof.
  vm_compute. repeat split; try reflexivity; discriminate.
Qed.

(* ------------------------------------------------------------------ *)
(** ** The further properties at concrete inputs                       *)
(* ------------------------------------------------------------------ *)

(** [angle_deg_monotone] at 1000 and 2000. *)
Lemma angle_deg_monotone_witness :
  1000 <= 2000 /\
  clamp_rpm 1000 < clamp_rpm 2000 /\
  (F32.value (angle_deg 1000) < F32.value (angle_deg 2000))%Q.
Proof.
  assert (H : 1000 <= 2000) by lia.
  assert (Hc : clamp_rpm 1000 < clamp_rpm 2000) by (vm_compute; reflexivity).
  split; [exact H|]. split; [exact Hc|].
  exact (proj1 (proj2 (angle_deg_monotone const_one const_one 1000 2000 H)) Hc).
Defined.

(** [needle_radii_ordered] at the width the builder sets. *)
Lemma needle_radii_ordered_witness :
  16 <= 370 <= 4096 /\
  (F32.value (needle_inner_r 370) < F32.value (needle_outer_r 370))%Q.
Proof.
  assert (H : 16 <= 370 <= 4096) by lia.
  split; [exact H|].
  exact (proj1 (proj2 (needle_radii_ordered 370 H))).
Defined.

(** [packet_rpm_little_endian] at 40 1f 00 00 followed by ff. *)
Lemma packet_rpm_little_endian_witness :
  (4 <= List.length [x40; x1f; x00; x00])%nat /\
  packet_rpm ([x40; x1f; x00; x00] ++ [xff]) = packet_rpm [x40; x1f; x00; x00].
Proof.
  assert (H : (4 <= List.length [x40; x1f; x00; x00])%nat) by (simpl; lia).
  split; [exact H|].
  exact (proj2 (proj2 (packet_rpm_little_endian [x40; x1f; x00; x00] [xff] H))).
Defined.

(** [packet_rpm_injective] at two payloads that differ only after the
    fourth byte. *)
Lemma packet_rpm_injective_witness :
  (4 <= List.length [x40; x1f; x00; x00; xff])%nat /\
  (4 <= List.length [x40; x1f; x00; x00])%nat /\
  packet_rpm [x40; x1f; x00; x00; xff] = packet_rpm [x40; x1f; x00; x00] /\
  firstn 4 [x40; x1f; x00; x00; xff] = firstn 4 [x40; x1f; x00; x00].
Proof.
  assert (Hp : (4 <= List.length [x40; x1f; x00; x00; xff])%nat)
    by (simpl; lia).
  assert (Hq : (4 <= List.length [x40; x1f; x00; x00])%nat) by (simpl; lia).
  assert (He : packet_rpm [x40; x1f; x00; x00; xff]
               = packet_rpm [x40; x1f; x00; x00]) by reflexivity.
  split; [exact Hp|]. split; [exact Hq|]. split; [exact He|].
  exact (packet_rpm_injective _ _ Hp Hq He).
Defined.

(** [packets_last_write_wins]: a one-byte payload, then one carrying
    8000. *)
Lemma packets_last_write_wins_witness :
  (4 <= List.length [x40; x1f; x00; x00])%nat /\
  packet_rpm [x40; x1f; x00; x00] <= RPM_MAX /\
  on_packet [x40; x1f; x00; x00] (on_packet [x01] (boot 360 360))
    = on_packet [x40; x1f; x00; x00] (boot 360 360).
Proof.
  assert (Hq : (4 <= List.length [x40; x1f; x00; x00])%nat) by (simpl; lia).
  assert (Hv : packet_rpm [x40; x1f; x00; x00] <= RPM_MAX)
    by (vm_compute; discriminate).
  split; [exact Hq|]. split; [exact Hv|].
  exact (proj2 (proj2 (packets_last_write_wins [] (boot 360 360)))
           [x01] [x40; x1f; x00; x00] Hq Hv).
Defined.

(** [Lvgl_CreateRpmGauge_full_rebuild]: the state after [setup] and the
    state at reset lead to the same build. *)
Lemma Lvgl_CreateRpmGauge_full_rebuild_witness :
  let st1 := setup const_one const_one 360 360 in
  let st2 := boot 360 360 in
  current_scheme st1 = current_scheme st2 /\
  rpm_value st1 = rpm_value st2 /\
  disp_hor_res st1 = disp_hor_res st2 /\
  disp_ver_res st1 = disp_ver_res st2 /\
  lv_timers (timer_teardown st1) = lv_timers (timer_teardown st2) /\
  Lvgl_CreateRpmGauge const_one const_one st1
    = Lvgl_CreateRpmGauge const_one const_one st2.
Proof.
  intros st1 st2.
  assert (Hc : current_scheme st1 = current_scheme st2) by reflexivity.
  assert (Hv : rpm_value st1 = rpm_value st2) by reflexivity.
  assert (Hh : disp_hor_res st1 = disp_hor_res st2) by reflexivity.
  assert (Hr : disp_ver_res st1 = disp_ver_res st2) by reflexivity.
  assert (Ht : lv_timers (timer_teardown st1) = lv_timers (timer_teardown st2))
    by reflexivity.
  repeat (split; [assumption|]).
  exact (proj1 (Lvgl_CreateRpmGauge_full_rebuild const_one const_one
                  st1 st2 Hc Hv Hh Hr Ht)).
Defined.

(** [taps_collapse]: six taps from the state at reset. *)
Lemma taps_collapse_witness :
  0 <= current_scheme (boot 360 360) < scheme_count /\
  Nat.iter (Z.to_nat scheme_count * 2)
    (touch_color_cycle_cb const_one const_one LV_EVENT_CLICKED) (boot 360 360)
    = Lvgl_CreateRpmGauge const_one const_one (boot 360 360).
Proof.
  assert (H : 0 <= current_scheme (boot 360 360) < scheme_count)
    by (simpl; unfold scheme_count; simpl; lia).
  split; [exact H|].
  exact (proj2 (taps_collapse const_one const_one 0 1 (boot 360 360)) H).
Defined.

(** [packet_then_tick]: a payload carrying 8000 right after [setup]. *)
Lemma packet_then_tick_witness :
  let st := setup const_one const_one 360 360 in
  (4 <= List.length [x40; x1f; x00; x00])%nat /\
  packet_rpm [x40; x1f; x00; x00] <= RPM_MAX /\
  label_shown
    (rpm_timer_cb const_one const_one (on_packet [x40; x1f; x00; x00] st))
    = Some (NilEmpty.string_of_int (Z.to_int (packet_rpm [x40; x1f; x00; x00]))).
Proof.
  intro st.
  assert (Hq : (4 <= List.length [x40; x1f; x00; x00])%nat) by (simpl; lia).
  assert (Hv : packet_rpm [x40; x1f; x00; x00] <= RPM_MAX)
    by (vm_compute; discriminate).
  split; [exact Hq|]. split; [exact Hv|].
  exact (proj1 (proj1 (packet_then_tick const_one const_one 360 360 []
                         [x40; x1f; x00; x00]) Hq Hv)).
Defined.

(** [angle_deg_affine] at 4000, on the scene [setup] builds for a
    360 x 360 display. *)
Lemma angle_deg_affine_witness :
  let st := setup const_one const_one 360 360 in
  rpm_meter st <> None /\ needle_line st <> None /\
  needle_points (update_needle const_one const_one 4000 st)
    = (mkPoint 215 215, mkPoint 313 313).
Proof.
  intro st.
  pose proof (angle_deg_affine const_one const_one 4000)
    as (_ & _ & _ & _ & _ & _ & _ & _ & _ & _ & Hpts).
  destruct (rpm_meter st) as [meter|] eqn:Hm; [|discriminate Hm].
  destruct (needle_line st) as [line|] eqn:Hl; [|discriminate Hl].
  split; [discriminate|]. split; [discriminate|].
  rewrite (Hpts st meter line Hm Hl).
  vm_compute in Hm. injection Hm as <-.
  vm_compute. reflexivity.
Defined.

(** [rebuild_twice_any_handle] from the state at reset, with the handles 1
    and 7. *)
Lemma rebuild_twice_any_handle_witness :
  timer_live 1 (lv_timers (timer_teardown (boot 360 360))) = false /\
  Lvgl_CreateRpmGauge_at const_one const_one 7
    (Lvgl_CreateRpmGauge_at const_one const_one 1 (boot 360 360))
    = Lvgl_CreateRpmGauge_at const_one const_one 7 (boot 360 360).
Proof.
  assert (H : timer_live 1 (lv_timers (timer_teardown (boot 360 360))) = false)
    by reflexivity.
  split; [exact H|].
  exact (proj1 (rebuild_twice_any_handle const_one const_one 1 7
                  (boot 360 360) H)).
Defined.
